(** * Text MOBA command layer (src/commands.cpp, src/text_moba.h)

    A shallow embedding of the ten console commands of the game and of the
    properties its specification states about them.

    The commands are written in a small monad that threads the session
    (the world owned by [TextMoba] plus the one stateful command object),
    records every observable call the command makes, and stops on a C++
    exception or on undefined behaviour.  The classes the commands talk
    to ([Character], [MapNode], [Skill], [CharacterGroups] and the body of
    [TextMoba]) are an interface, [Engine], of which the commands are
    generic clients. *)

From Stdlib Require Import ZArith List String Ascii Bool Lia.
Import ListNotations.

Local Open Scope string_scope.
Local Open Scope Z_scope.

(** ** Enumerations of text_moba.h *)

Inductive Team := BLUE | RED | NEUTRAL.

Inductive Place := BACK | FRONT.

Definition Team_eqb (a b : Team) : bool :=
  match a, b with
  | BLUE, BLUE | RED, RED | NEUTRAL, NEUTRAL => true
  | _, _ => false
  end.

Definition Place_eqb (a b : Place) : bool :=
  match a, b with
  | BACK, BACK | FRONT, FRONT => true
  | _, _ => false
  end.

(** The targeting mode of a skill.  commands.cpp tests it against [SINGLE]
    and [ANY_ROW] and sends everything else to the argument-less
    [targets()]; the enumeration itself lives in skill.h. *)
Inductive TargetType := SINGLE | ANY_ROW | NO_TARGET.

(** Shared pointers ([CharacterSP], [MapNodeSP], [SkillSP]) are object
    identities; a null pointer is [None]. *)
Definition Character := nat.
Definition MapNode := nat.
Definition Skill := nat.

(** ** Strings: [join], [toLower], [std::stoi] *)

(** [join(begin, end, joinString)] of commands.cpp. *)
Fixpoint join_from (joinString : string) (xs : list string) : string :=
  match xs with
  | [] => EmptyString
  | x :: rest => joinString ++ x ++ join_from joinString rest
  end.

Definition join (xs : list string) (joinString : string) : string :=
  match xs with
  | [] => EmptyString
  | x :: rest => x ++ join_from joinString rest
  end.

(** [std::tolower] in the C locale: only 'A'..'Z' move. *)
Definition tolower (c : ascii) : ascii :=
  let n := N_of_ascii c in
  if (65 <=? n)%N && (n <=? 90)%N then ascii_of_N (n + 32) else c.

(** [toLower] of commands.cpp walks the code points of the string, lowers
    each with [std::tolower] and re-encodes it.  On the bytes of an ASCII
    string decoding and encoding are the identity; the bytes of a longer
    UTF-8 sequence are all above 127 and the C locale leaves their code
    point alone, so the string is lowered byte by byte. *)
Fixpoint toLower (s : string) : string :=
  match s with
  | EmptyString => EmptyString
  | String c rest => String (tolower c) (toLower rest)
  end.

(** What a call to [std::stoi(str)] does: it returns an [int], or throws
    one of the two exceptions of <stdexcept>. *)
Inductive StoiResult :=
| StoiValue (n : Z)
| StoiInvalidArgument
| StoiOutOfRange.

Definition isspace (c : ascii) : bool :=
  let n := N_of_ascii c in
  (n =? 32)%N || ((9 <=? n)%N && (n <=? 13)%N).

Definition isdigit (c : ascii) : bool :=
  let n := N_of_ascii c in
  (48 <=? n)%N && (n <=? 57)%N.

Definition digit_value (c : ascii) : Z := Z.of_N (N_of_ascii c) - 48.

Fixpoint skip_spaces (s : string) : string :=
  match s with
  | String c rest => if isspace c then skip_spaces rest else s
  | EmptyString => s
  end.

(** The longest prefix of decimal digits: how many there are and their
    value, read after [acc]. *)
Fixpoint read_digits (acc : Z) (count : nat) (s : string) : Z * nat :=
  match s with
  | String c rest =>
      if isdigit c then read_digits (10 * acc + digit_value c) (S count) rest
      else (acc, count)
  | EmptyString => (acc, count)
  end.

(** One optional sign: whether it was a minus, and what follows it. *)
Definition strip_sign (s : string) : bool * string :=
  match s with
  | String c rest =>
      if (c =? "-")%char then (true, rest)
      else if (c =? "+")%char then (false, rest)
      else (false, s)
  | EmptyString => (false, s)
  end.

Definition INT_MIN : Z := - 2147483648.
Definition INT_MAX : Z := 2147483647.

(** [std::stoi(str)] with the default base 10, as the C++ standard defines
    it through [strtol]: leading white space is skipped, one sign is
    accepted, the longest run of digits is converted and whatever follows
    is ignored.  No digit at all is [std::invalid_argument]; a value that
    does not fit an [int] is [std::out_of_range]. *)
Definition stoi (str : string) : StoiResult :=
  let '(negative, body) := strip_sign (skip_spaces str) in
  let '(magnitude, count) := read_digits 0 0 body in
  match count with
  | O => StoiInvalidArgument
  | S _ =>
      let n := if negative then - magnitude else magnitude in
      if (INT_MIN <=? n) && (n <=? INT_MAX) then StoiValue n else StoiOutOfRange
  end.

(** The conversion of an [int] to [unsigned] ([unsigned index = stoi(..)]). *)
Definition to_unsigned (n : Z) : Z := n mod 4294967296.

(** The spec's words "a number": an optional sign followed by decimal
    digits and nothing else. *)
Fixpoint all_digits (s : string) : bool :=
  match s with
  | EmptyString => true
  | String c rest => isdigit c && all_digits rest
  end.

Definition spec_is_number (s : string) : bool :=
  match snd (strip_sign s) with
  | EmptyString => false
  | body => all_digits body
  end.

(** ** What a command can be seen doing *)

(** One argument of the variadic [print(...)]: the console concatenates
    the arguments of one call into one line. *)
Inductive PrintArg :=
| PS (s : string)
| PN (n : Z).

(** The calls a command makes on its collaborators, in the order made. *)
Inductive Call :=
| CPrint (line : list PrintArg)
| CExecCommand (line : string)
| CMoveCharacter (c : Character) (dest : MapNode)
| CPlaceCharacter (c : Character) (place : Place)
| CAttack (attacker target : Character)
| CSubMana (c : Character) (cost : Z)
| CUseOn (skill : Skill) (targets : list Character)
| CRestart (className : string)
| CNextTurn.

Definition is_print (c : Call) : bool :=
  match c with CPrint _ => true | _ => false end.

Definition is_nextTurn (c : Call) : bool :=
  match c with CNextTurn => true | _ => false end.

Definition is_useOn (c : Call) : bool :=
  match c with CUseOn _ _ => true | _ => false end.

Definition is_subMana (c : Call) : bool :=
  match c with CSubMana _ _ => true | _ => false end.

Definition is_moveCharacter (c : Call) : bool :=
  match c with CMoveCharacter _ _ => true | _ => false end.

Definition count_calls (p : Call -> bool) (log : list Call) : nat :=
  List.length (filter p log).

Definition only_prints (log : list Call) : bool := forallb is_print log.

(** How a command can stop without returning. *)
Inductive Failure :=
| std_invalid_argument
| std_out_of_range
| undefined_behaviour.

(** ** The command classes *)

(** The registered subclasses of [TMCommand]. *)
Inductive TMCommand :=
| HelpCommand
| InfoCommand
| LookCommand
| DirectionsCommand
| WaitCommand
| GoCommand
| MoveCommand
| AttackCommand
| UseCommand
| RestartCommand.

(** [_names], as each constructor fills it. *)
Definition names (cmd : TMCommand) : list string :=
  match cmd with
  | HelpCommand => ["help"; "h"; "?"]
  | InfoCommand => ["info"; "i"]
  | LookCommand => ["look"; "l"]
  | DirectionsCommand => ["directions"; "dir"; "d"]
  | WaitCommand => ["wait"; "w"]
  | GoCommand => ["go"; "g"]
  | MoveCommand => ["move"; "m"]
  | AttackCommand => ["attack"; "a"]
  | UseCommand => ["use"; "u"]
  | RestartCommand => ["restart"]
  end.

Definition nl : string := String (ascii_of_N 10) EmptyString.
Definition dq : string := String (ascii_of_N 34) EmptyString.

(** [_desc], as each constructor sets it. *)
Definition desc (cmd : TMCommand) : string :=
  match cmd with
  | HelpCommand => "  Prints this help message."
  | InfoCommand => "  Information about game mechanics."
  | LookCommand =>
      "  Look around you. Describe the place and what / who is" ++ nl ++
      "  here. With a parameter, look at a specific object here." ++ nl ++
      "  Example: look tower (describe a tower)"
  | DirectionsCommand => "  List the destinations you can reach from here."
  | WaitCommand => "  Do nothing until next turn."
  | GoCommand =>
      "  Walk in a given direction. Type " ++ dq ++ "directions" ++ dq ++
      " to see where" ++ nl ++
      "  you can go. Example: go red (go toward the red base)"
  | MoveCommand =>
      "  Take " ++ dq ++ "front" ++ dq ++ " or " ++ dq ++ "back" ++ dq ++
      " in parameter. Move your" ++ nl ++
      "  character to the front/back row."
  | AttackCommand =>
      "  Attack the enemy number n, where n is the number you can" ++ nl ++
      "  see when you run the command look."
  | UseCommand =>
      "  Use a skill. Some skills need a <character-number> or a" ++ nl ++
      "  row (front or back) in parameter. Example: " ++ nl ++
      "    use bomb front"
  | RestartCommand => "  Restart the game."
  end.

(** ** The collaborators of the commands *)

(** Everything commands.cpp calls on [TextMoba], [Character], [MapNode],
    [CharacterGroups] and [Skill].  Their bodies are in other translation
    units; the commands only rely on the signatures.  Getters read the
    world, the mutating methods return the world they leave.

    Integers whose C++ type is declared in those other headers (hit
    points, mana, level, range, distance) are plain [Z]. *)
Class Engine (World : Type) := {
  (* TextMoba *)
  player : World -> Character;
  commands : World -> list TMCommand;
  infos : World -> list (string * string);
  infos_at : World -> string -> option string;
  moveCharacter : Character -> MapNode -> World -> World;
  placeCharacter : Character -> Place -> World -> World;
  nextTurn : World -> World;
  restart : string -> World -> World;
  (* Character *)
  isAlive : World -> Character -> bool;
  team : World -> Character -> Team;
  place : World -> Character -> Place;
  placeName : World -> Character -> string;
  name : World -> Character -> bool -> string;
  level : World -> Character -> Z;
  hp : World -> Character -> Z;
  maxHP : World -> Character -> Z;
  range : World -> Character -> Z;
  mana : World -> Character -> Z;
  set_mana : Character -> Z -> World -> World;
  node : World -> Character -> MapNode;
  skill : World -> Character -> string -> option Skill;
  attack : Character -> Character -> World -> World;
  (* MapNode and its CharacterGroups *)
  nodeName : World -> MapNode -> string;
  characters : World -> MapNode -> list Character;
  characterAt : World -> MapNode -> Z -> option Character;
  destination : World -> MapNode -> string -> option MapNode;
  paths : World -> MapNode -> list (MapNode * list string);
  distanceBetween : World -> MapNode -> Character -> Character -> Z;
  (* Skill *)
  usable : World -> Skill -> bool;
  target : World -> Skill -> TargetType;
  targetTeam : World -> Skill -> Team;
  manaCost : World -> Skill -> Z;
  targets_character : World -> Skill -> Character -> list Character;
  targets_place : World -> Skill -> Place -> list Character;
  targets_none : World -> Skill -> list Character;
  useOn : Skill -> list Character -> World -> World
}.

(** ** The command monad *)

Section Commands.

Context {World : Type} {E : Engine World}.

(** The state a command runs in: the world behind [tm()] and the
    [_readClass] member of the one [RestartCommand] object. *)
Record Session := mkSession {
  world : World;
  readClass : bool
}.

Definition set_world (w : World) (s : Session) : Session :=
  mkSession w (readClass s).

Definition set_readClass (b : bool) (s : Session) : Session :=
  mkSession (world s) b.

(** A run either returns a value or stops on a [Failure]; both leave a
    session behind and the calls made so far. *)
Inductive Result (A : Type) :=
| Done (a : A) (s : Session) (log : list Call)
| Stop (e : Failure) (s : Session) (log : list Call).

Arguments Done {A} a s log.
Arguments Stop {A} e s log.

Definition M (A : Type) : Type := Session -> Result A.

Definition ret {A} (a : A) : M A := fun s => Done a s [].

(** The calls [l] were made before the run [r]. *)
Definition after {A} (l : list Call) (r : Result A) : Result A :=
  match r with
  | Done a s l2 => Done a s (l ++ l2)
  | Stop e s l2 => Stop e s (l ++ l2)
  end.

Definition bind {A B} (m : M A) (k : A -> M B) : M B :=
  fun s =>
    match m s with
    | Done a s1 l1 => after l1 (k a s1)
    | Stop e s1 l1 => Stop e s1 l1
    end.

Definition throw {A} (e : Failure) : M A := fun s => Stop e s [].

Definition reads {A} (f : World -> A) : M A := fun s => Done (f (world s)) s [].

Definition call (c : Call) (f : World -> World) : M unit :=
  fun s => Done tt (set_world (f (world s)) s) [c].

Definition print (line : list PrintArg) : M unit :=
  fun s => Done tt s [CPrint line].

Definition get_readClass : M bool := fun s => Done (readClass s) s [].

Definition put_readClass (b : bool) : M unit :=
  fun s => Done tt (set_readClass b s) [].

(** [args[i]]: [std::vector::operator[]] does not check its index. *)
Definition at_ (args : list string) (i : nat) : M string :=
  match nth_error args i with
  | Some a => ret a
  | None => throw undefined_behaviour
  end.

(** [for (x : xs) body(x)] *)
Fixpoint for_each {A} (xs : list A) (body : A -> M unit) : M unit :=
  match xs with
  | [] => ret tt
  | x :: rest => bind (body x) (fun _ => for_each rest body)
  end.

(** The final session and the calls of a run, however it ended. *)
Definition session_of {A} (r : Result A) : Session :=
  match r with Done _ s _ | Stop _ s _ => s end.

Definition log_of {A} (r : Result A) : list Call :=
  match r with Done _ _ l | Stop _ _ l => l end.

End Commands.

Arguments Session World : clear implicits.
Arguments Result World A : clear implicits.
Arguments M World A : clear implicits.
Arguments Done {World A} a s log.
Arguments Stop {World A} e s log.

Declare Scope cmd_scope.
Delimit Scope cmd_scope with cmd.
Notation "x <- m ;; k" := (bind m (fun x => k))
  (at level 61, m at next level, right associativity) : cmd_scope.
Notation "m ;; k" := (bind m (fun _ => k))
  (at level 61, right associativity) : cmd_scope.

Local Open Scope cmd_scope.

(** ** The commands of commands.cpp *)

Section Exec.

Context {World : Type} {E : Engine World}.

Definition dead_msg : string :=
  "You are dead... Please use the command " ++ dq ++ "wait" ++ dq ++
  " until you respawn.".

(** [player()->isAlive()] *)
Definition player_isAlive : M World bool := reads (fun w => isAlive w (player w)).

(** [HelpCommand::exec] *)
Definition HelpCommand_exec (args : list string) : M World bool :=
  cmds <- reads commands ;;
  for_each cmds (fun cmd =>
    print [PS (join (names cmd) ", ")] ;;
    print [PS (desc cmd)]) ;;
  ret true.

(** [InfoCommand::exec] *)
Definition InfoCommand_exec (args : list string) : M World bool :=
  if negb (List.length args =? 2)%nat then
    a0 <- at_ args 0 ;;
    print [PS ("Available topic (use " ++ dq); PS a0;
           PS (dq ++ " <topic>" ++ dq ++ ":")] ;;
    topics <- reads infos ;;
    for_each topics (fun pair => print [PS "  "; PS (fst pair)]) ;;
    ret true
  else
    a1 <- at_ args 1 ;;
    info <- reads (fun w => infos_at w a1) ;;
    match info with
    | Some text => print [PS text]
    | None => print [PS ("Unknown topic " ++ dq); PS a1; PS (dq ++ ".")]
    end ;;
    ret true.

(** The loop of [LookCommand::exec] over [node->characters()], with its
    [unsigned i]. *)
Fixpoint look_characters (nodeSP : MapNode) (i : Z) (cs : list Character)
  : M World unit :=
  match cs with
  | [] => ret tt
  | c :: rest =>
      line <- reads (fun w =>
        [PS "  "; PN i; PS ": ";
         PS "["; PS (placeName w c); PS "] "; PS (name w c false); PS " (lvl ";
         PN (level w c + 1); PS ", "; PN (hp w c); PS " / "; PN (maxHP w c);
         PS ")";
         PS " dist: "; PN (distanceBetween w nodeSP (player w) c)]) ;;
      print line ;;
      look_characters nodeSP (to_unsigned (i + 1)) rest
  end.

(** [LookCommand::exec] *)
Definition LookCommand_exec (args : list string) : M World bool :=
  alive <- player_isAlive ;;
  if negb alive then
    print [PS dead_msg] ;; ret true
  else
    (if (List.length args =? 1)%nat then
       nodeSP <- reads (fun w => node w (player w)) ;;
       nm <- reads (fun w => nodeName w nodeSP) ;;
       print [PS "You are at "; PS nm; PS "."] ;;
       print [PS "Here, there is"] ;;
       cs <- reads (fun w => characters w nodeSP) ;;
       look_characters nodeSP 0 cs
     else ret tt) ;;
    ret true.

(** [DirectionsCommand::exec] *)
Definition DirectionsCommand_exec (args : list string) : M World bool :=
  alive <- player_isAlive ;;
  if negb alive then
    print [PS dead_msg] ;; ret true
  else
    print [PS "From here, you can go toward:"] ;;
    ps <- reads (fun w => paths w (node w (player w))) ;;
    for_each ps (fun pair =>
      nm <- reads (fun w => nodeName w (fst pair)) ;;
      print [PS "  "; PS (join (snd pair) ", "); PS ": toward "; PS nm]) ;;
    ret true.

(** [WaitCommand::exec] *)
Definition WaitCommand_exec (args : list string) : M World bool :=
  call CNextTurn nextTurn ;;
  ret true.

(** Modelled from the spec: [TextMoba::execCommand], whose body is not in
    commands.cpp.  Section 4.5: the line is split into tokens, the first
    token is looked up in the alias table and the command found gets the
    tokens.  [GoCommand] only ever passes the line "look", an alias of
    [LookCommand]. *)
Definition execCommand_look : M World bool :=
  fun s =>
    after [CExecCommand "look"] (LookCommand_exec ["look"] s).

(** [GoCommand::exec] *)
Definition GoCommand_exec (args : list string) : M World bool :=
  alive <- player_isAlive ;;
  if negb alive then
    print [PS dead_msg] ;; ret true
  else if negb (List.length args =? 2)%nat then
    print [PS "I don't understand where you want to go. Type"] ;;
    a0 <- at_ args 0 ;;
    print [PS "  "; PS a0; PS " <direction>"] ;;
    ret true
  else
    a1 <- at_ args 1 ;;
    let dir := toLower a1 in
    nodeSP <- reads (fun w => node w (player w)) ;;
    dest <- reads (fun w => destination w nodeSP dir) ;;
    match dest with
    | Some destSP =>
        p <- reads player ;;
        call (CMoveCharacter p destSP) (moveCharacter p destSP) ;;
        execCommand_look ;;
        call CNextTurn nextTurn ;;
        ret true
    | None =>
        print [PS ("Unknown direction " ++ dq); PS dir; PS dq] ;;
        ret true
    end.

(** [MoveCommand::exec] *)
Definition MoveCommand_exec (args : list string) : M World bool :=
  alive <- player_isAlive ;;
  if negb alive then
    print [PS dead_msg] ;; ret true
  else if negb (List.length args =? 2)%nat
          (* [args[1]] is only read when the size test let it through *)
          || (negb (nth 1 args EmptyString =? "front")%string
              && negb (nth 1 args EmptyString =? "back")%string) then
    print [PS "I don't understand where you want to go. Type"] ;;
    a0 <- at_ args 0 ;;
    print [PS "  "; PS a0; PS " [front|back]"] ;;
    ret true
  else
    a1 <- at_ args 1 ;;
    let placeArg := if (a1 =? "front")%string then FRONT else BACK in
    current <- reads (fun w => place w (player w)) ;;
    if Place_eqb placeArg current then
      print [PS "You already are at the "; PS a1; PS " row."] ;;
      ret true
    else
      p <- reads player ;;
      call (CPlaceCharacter p placeArg) (placeCharacter p placeArg) ;;
      call CNextTurn nextTurn ;;
      ret true.

(** [AttackCommand::exec].  The [try] block only catches
    [std::invalid_argument]; the other exception of [std::stoi] leaves the
    function. *)
Definition AttackCommand_exec (args : list string) : M World bool :=
  alive <- player_isAlive ;;
  if negb alive then
    print [PS dead_msg] ;; ret true
  else if negb (List.length args =? 2)%nat then
    print [PS "I don't understand who you want to attack. Type"] ;;
    a0 <- at_ args 0 ;;
    print [PS "  "; PS a0; PS " <character-number>"] ;;
    print [PS "where <character-number> is the number displayed"] ;;
    print [PS ("when you type " ++ dq ++ "look" ++ dq ++ ".")] ;;
    ret true
  else
    a1 <- at_ args 1 ;;
    match stoi a1 with
    | StoiInvalidArgument =>
        print [PS "I don't understand who you try to attack."] ;;
        ret true
    | StoiOutOfRange => throw std_out_of_range
    | StoiValue n =>
        let index := to_unsigned n in
        found <- reads (fun w => characterAt w (node w (player w)) index) ;;
        match found with
        | None => print [PS "Invalid target."] ;; ret true
        | Some targetSP =>
            targetAlive <- reads (fun w => isAlive w targetSP) ;;
            if negb targetAlive then
              print [PS "Invalid target."] ;; ret true
            else
              sameTeam <- reads (fun w =>
                Team_eqb (team w targetSP) (team w (player w))) ;;
              if sameTeam then
                print [PS "You cannot attack allies."] ;; ret true
              else
                tooFar <- reads (fun w =>
                  distanceBetween w (node w (player w)) (player w) targetSP
                  >? range w (player w)) ;;
                if tooFar then
                  print [PS "Target out of range."] ;; ret true
                else
                  p <- reads player ;;
                  call (CAttack p targetSP) (attack p targetSP) ;;
                  call CNextTurn nextTurn ;;
                  ret true
        end
    end.

End Exec.

Section ExecUse.

Context {World : Type} {E : Engine World}.

(** The end of [UseCommand::exec], from [if(targets.empty())] on: the
    three targeting branches all fall through to it. *)
Definition UseCommand_commit (skillSP : Skill) (targets : list Character)
  : M World bool :=
  match targets with
  | [] => print [PS "No targets in range."] ;; ret true
  | _ :: _ =>
      p <- reads player ;;
      cost <- reads (fun w => manaCost w skillSP) ;;
      current <- reads (fun w => mana w p) ;;
      call (CSubMana p cost) (set_mana p (current - cost)) ;;
      call (CUseOn skillSP targets) (useOn skillSP targets) ;;
      call CNextTurn nextTurn ;;
      ret true
  end.

(** [UseCommand::exec] *)
Definition UseCommand_exec (args : list string) : M World bool :=
  alive <- player_isAlive ;;
  if negb alive then
    print [PS dead_msg] ;; ret true
  else if (List.length args <? 2)%nat then
    print [PS "I don't understand what you try to use. Type"] ;;
    a0 <- at_ args 0 ;;
    print [PS "  "; PS a0; PS " <skill-name> [<character-number>|front|back]"] ;;
    ret true
  else
    a1 <- at_ args 1 ;;
    owned <- reads (fun w => skill w (player w) a1) ;;
    match owned with
    | None => print [PS "You don't have a skill called "; PS a1] ;; ret true
    | Some skillSP =>
        ready <- reads (fun w => usable w skillSP) ;;
        if negb ready then
          print [PS "You can't use this skill right now."] ;; ret true
        else
          mode <- reads (fun w => target w skillSP) ;;
          match mode with
          | SINGLE =>
              if negb (List.length args =? 3)%nat then
                print [PS ("This skill targets a single foe and so takes a " ++
                           "<character-number> in parameter.")] ;;
                ret true
              else
                a2 <- at_ args 2 ;;
                match stoi a2 with
                | StoiInvalidArgument =>
                    print [PS "I don't understand who you're trying to attack."] ;;
                    ret true
                | StoiOutOfRange => throw std_out_of_range
                | StoiValue n =>
                    let charIndex := to_unsigned n in
                    found <- reads (fun w =>
                      characterAt w (node w (player w)) charIndex) ;;
                    match found with
                    | None => print [PS "Invalid target."] ;; ret true
                    | Some targetSP =>
                        targetAlive <- reads (fun w => isAlive w targetSP) ;;
                        if negb targetAlive then
                          print [PS "Invalid target."] ;; ret true
                        else
                          rightTeam <- reads (fun w =>
                            Team_eqb (team w targetSP) (targetTeam w skillSP)) ;;
                          if negb rightTeam then
                            print [PS "Target is in the wrong team."] ;; ret true
                          else
                            targets <- reads (fun w =>
                              targets_character w skillSP targetSP) ;;
                            match targets with
                            | [] =>
                                print [PS "Target is out-of-range."] ;; ret true
                            | _ :: _ => UseCommand_commit skillSP targets
                            end
                    end
                end
          | ANY_ROW =>
              if negb (List.length args =? 3)%nat
                 (* [args[2]] is only read when the size test let it through *)
                 || (negb (nth 2 args EmptyString =? "front")%string
                     && negb (nth 2 args EmptyString =? "back")%string) then
                print [PS ("This skill target a row so you need to choose between " ++
                           " " ++ dq ++ "front" ++ dq ++ " or " ++ dq ++ "back" ++ dq ++
                           ". The row must be in range.")] ;;
                ret true
              else
                a2 <- at_ args 2 ;;
                let placeArg := if (a2 =? "front")%string then FRONT else BACK in
                targets <- reads (fun w => targets_place w skillSP placeArg) ;;
                UseCommand_commit skillSP targets
          | NO_TARGET =>
              targets <- reads (fun w => targets_none w skillSP) ;;
              UseCommand_commit skillSP targets
          end
    end.

Definition is_className (className : string) : bool :=
  (className =? "warrior")%string || (className =? "ranger")%string
  || (className =? "mage")%string.

(** The end of [RestartCommand::exec], once [className] is set. *)
Definition RestartCommand_choose (className : string) : M World bool :=
  if is_className className then
    call (CRestart className) (restart className) ;;
    put_readClass false ;;
    ret true
  else
    print [PS "Unknown class name "; PS className] ;;
    print [PS "Please enter one class name: warrior, ranger or mage."] ;;
    rc <- get_readClass ;;
    ret (negb rc).

(** [RestartCommand::exec] *)
Definition RestartCommand_exec (args : list string) : M World bool :=
  rc <- get_readClass ;;
  if negb rc && (List.length args =? 1)%nat then
    print [PS "Choose your class: [ warrior, ranger, mage ]"] ;;
    put_readClass true ;;
    ret false
  else if negb rc && (List.length args =? 2)%nat then
    className <- at_ args 1 ;;
    RestartCommand_choose className
  else if rc && (List.length args =? 1)%nat then
    className <- at_ args 0 ;;
    RestartCommand_choose className
  else if negb rc then
    a0 <- at_ args 0 ;;
    print [PS a0; PS " takes 0 or 1 parameter."] ;;
    ret true
  else
    print [PS "Please enter one class name: warrior, ranger or mage."] ;;
    ret false.

(** The virtual call [cmd->exec(args)]. *)
Definition exec (cmd : TMCommand) (args : list string) : M World bool :=
  match cmd with
  | HelpCommand => HelpCommand_exec args
  | InfoCommand => InfoCommand_exec args
  | LookCommand => LookCommand_exec args
  | DirectionsCommand => DirectionsCommand_exec args
  | WaitCommand => WaitCommand_exec args
  | GoCommand => GoCommand_exec args
  | MoveCommand => MoveCommand_exec args
  | AttackCommand => AttackCommand_exec args
  | UseCommand => UseCommand_exec args
  | RestartCommand => RestartCommand_exec args
  end.

End ExecUse.

(** ** A small world to run the commands in *)

Module Demo.

(** Modelled from the spec: the classes behind [Engine] ([Character],
    [MapNode], [CharacterGroups], [Skill], [TextMoba]) are declared in
    headers that commands.cpp includes and defined elsewhere.  This is the
    data model of section 3 and the operations of section 4, kept to what
    the commands observe, over a world of two nodes. *)
Record CharacterData := {
  ch_name : string;
  ch_team : Team;
  ch_place : Place;
  ch_node : MapNode;
  ch_hp : Z;
  ch_maxHP : Z;
  ch_mana : Z;
  ch_level : Z;
  ch_range : Z;
  ch_damage : Z
}.

Record SkillData := {
  sk_owner : Character;
  sk_name : string;
  sk_target : TargetType;
  sk_targetTeam : Team;
  sk_manaCost : Z;
  sk_range : Z;
  sk_cooldown : Z;
  sk_power : Z
}.

Record NodeData := {
  nd_name : string;
  nd_exits : list (string * MapNode)
}.

Record World := {
  w_turn : Z;
  w_class : string;
  w_player : Character;
  w_characters : list CharacterData;
  w_skills : list SkillData;
  w_nodes : list NodeData
}.

Definition nobody : CharacterData :=
  {| ch_name := EmptyString; ch_team := NEUTRAL; ch_place := BACK; ch_node := O;
     ch_hp := 0; ch_maxHP := 0; ch_mana := 0; ch_level := 0; ch_range := 0;
     ch_damage := 0 |}.

Definition no_skill : SkillData :=
  {| sk_owner := O; sk_name := EmptyString; sk_target := NO_TARGET;
     sk_targetTeam := NEUTRAL; sk_manaCost := 0; sk_range := 0;
     sk_cooldown := 0; sk_power := 0 |}.

Definition nowhere : NodeData := {| nd_name := EmptyString; nd_exits := [] |}.

Definition character (w : World) (c : Character) : CharacterData :=
  nth c (w_characters w) nobody.

Definition skill_data (w : World) (s : Skill) : SkillData :=
  nth s (w_skills w) no_skill.

Fixpoint update {A} (i : nat) (f : A -> A) (xs : list A) : list A :=
  match xs, i with
  | [], _ => []
  | x :: rest, O => f x :: rest
  | x :: rest, S j => x :: update j f rest
  end.

Definition with_characters (w : World) (cs : list CharacterData) : World :=
  {| w_turn := w_turn w; w_class := w_class w; w_player := w_player w;
     w_characters := cs; w_skills := w_skills w; w_nodes := w_nodes w |}.

Definition set_hp (v : Z) (c : CharacterData) : CharacterData :=
  {| ch_name := ch_name c; ch_team := ch_team c; ch_place := ch_place c;
     ch_node := ch_node c; ch_hp := v; ch_maxHP := ch_maxHP c;
     ch_mana := ch_mana c; ch_level := ch_level c; ch_range := ch_range c;
     ch_damage := ch_damage c |}.

Definition set_ch_mana (v : Z) (c : CharacterData) : CharacterData :=
  {| ch_name := ch_name c; ch_team := ch_team c; ch_place := ch_place c;
     ch_node := ch_node c; ch_hp := ch_hp c; ch_maxHP := ch_maxHP c;
     ch_mana := v; ch_level := ch_level c; ch_range := ch_range c;
     ch_damage := ch_damage c |}.

Definition set_ch_node (n : MapNode) (c : CharacterData) : CharacterData :=
  {| ch_name := ch_name c; ch_team := ch_team c; ch_place := ch_place c;
     ch_node := n; ch_hp := ch_hp c; ch_maxHP := ch_maxHP c;
     ch_mana := ch_mana c; ch_level := ch_level c; ch_range := ch_range c;
     ch_damage := ch_damage c |}.

Definition set_ch_place (p : Place) (c : CharacterData) : CharacterData :=
  {| ch_name := ch_name c; ch_team := ch_team c; ch_place := p;
     ch_node := ch_node c; ch_hp := ch_hp c; ch_maxHP := ch_maxHP c;
     ch_mana := ch_mana c; ch_level := ch_level c; ch_range := ch_range c;
     ch_damage := ch_damage c |}.

Definition set_cooldown (v : Z) (s : SkillData) : SkillData :=
  {| sk_owner := sk_owner s; sk_name := sk_name s; sk_target := sk_target s;
     sk_targetTeam := sk_targetTeam s; sk_manaCost := sk_manaCost s;
     sk_range := sk_range s; sk_cooldown := v; sk_power := sk_power s |}.

Definition alive (w : World) (c : Character) : bool := 0 <? ch_hp (character w c).

(** The roster of a node, in the order [look] numbers it. *)
Definition roster (w : World) (n : MapNode) : list Character :=
  filter (fun c => Nat.eqb (ch_node (character w c)) n)
         (seq 0 (List.length (w_characters w))).

(** Section 4.2: a display index beyond the roster is no character. *)
Definition roster_at (w : World) (n : MapNode) (index : Z) : option Character :=
  if index <? 0 then None else nth_error (roster w n) (Z.to_nat index).

(** The distance table of section 3. *)
Definition distance (w : World) (a b : Character) : Z :=
  let ca := character w a in
  let cb := character w b in
  if Team_eqb (ch_team ca) (ch_team cb) then
    if Place_eqb (ch_place ca) (ch_place cb) then 0 else 1
  else
    match ch_place ca, ch_place cb with
    | FRONT, FRONT => 1
    | BACK, BACK => 3
    | _, _ => 2
    end.

Definition exit_to (w : World) (n : MapNode) (label : string) : option MapNode :=
  match find (fun e => (fst e =? label)%string) (nd_exits (nth n (w_nodes w) nowhere)) with
  | Some e => Some (snd e)
  | None => None
  end.

(** Section 4.1: the labels of the exits, merged per destination. *)
Fixpoint merge_paths (exits : list (string * MapNode))
  (acc : list (MapNode * list string)) : list (MapNode * list string) :=
  match exits with
  | [] => acc
  | (label, d) :: rest =>
      merge_paths rest
        (if existsb (fun p => Nat.eqb (fst p) d) acc
         then map (fun p => if Nat.eqb (fst p) d
                            then (fst p, (snd p ++ [label])%list) else p) acc
         else (acc ++ [(d, [label])])%list)
  end.

(** Section 4.3: the attacker's damage comes off the target's health,
    which stops at 0. *)
Definition strike (a t : Character) (w : World) : World :=
  with_characters w
    (update t (fun c => set_hp (Z.max 0 (ch_hp c - ch_damage (character w a))) c)
       (w_characters w)).

Definition find_skill (w : World) (c : Character) (nm : string) : option Skill :=
  find (fun s => Nat.eqb (sk_owner (skill_data w s)) c
                 && (sk_name (skill_data w s) =? nm)%string)
       (seq 0 (List.length (w_skills w))).

(** Section 4.4: a skill is ready when it is off cooldown and its caster
    can pay for it. *)
Definition ready (w : World) (s : Skill) : bool :=
  let d := skill_data w s in
  (sk_cooldown d =? 0) && (sk_manaCost d <=? ch_mana (character w (sk_owner d))).

Definition in_reach (w : World) (s : Skill) (t : Character) : bool :=
  distance w (sk_owner (skill_data w s)) t <=? sk_range (skill_data w s).

Definition single_targets (w : World) (s : Skill) (t : Character) : list Character :=
  if in_reach w s t then [t] else [].

Definition row_targets (w : World) (s : Skill) (p : Place) : list Character :=
  let owner := sk_owner (skill_data w s) in
  filter (fun t => alive w t
                   && negb (Team_eqb (ch_team (character w t)) (ch_team (character w owner)))
                   && Place_eqb (ch_place (character w t)) p
                   && in_reach w s t)
         (roster w (ch_node (character w owner))).

Definition own_targets (w : World) (s : Skill) : list Character :=
  let owner := sk_owner (skill_data w s) in
  filter (fun t => alive w t
                   && Team_eqb (ch_team (character w t)) (sk_targetTeam (skill_data w s))
                   && in_reach w s t)
         (roster w (ch_node (character w owner))).

Definition apply_skill (s : Skill) (ts : list Character) (w : World) : World :=
  let power := sk_power (skill_data w s) in
  let hit := fold_left
    (fun cs t => update t (fun c => set_hp (Z.max 0 (ch_hp c - power)) c) cs)
    ts (w_characters w) in
  {| w_turn := w_turn w; w_class := w_class w; w_player := w_player w;
     w_characters := hit;
     w_skills := update s (set_cooldown 2) (w_skills w);
     w_nodes := w_nodes w |}.

(** Section 4.6: one unit of world time; cooldowns decay. *)
Definition step (w : World) : World :=
  {| w_turn := w_turn w + 1; w_class := w_class w; w_player := w_player w;
     w_characters := w_characters w;
     w_skills := map (fun s => set_cooldown (Z.max 0 (sk_cooldown s - 1)) s) (w_skills w);
     w_nodes := w_nodes w |}.

Definition mk_character nm tm pl nd h mx mn rg dm : CharacterData :=
  {| ch_name := nm; ch_team := tm; ch_place := pl; ch_node := nd; ch_hp := h;
     ch_maxHP := mx; ch_mana := mn; ch_level := 0; ch_range := rg;
     ch_damage := dm |}.

Definition mk_skill ow nm tg tt cost rg cd pw : SkillData :=
  {| sk_owner := ow; sk_name := nm; sk_target := tg; sk_targetTeam := tt;
     sk_manaCost := cost; sk_range := rg; sk_cooldown := cd; sk_power := pw |}.

(** Section 4.6, [restart]: the whole world is rebuilt for the class.
    The player is character 0, in front at "Base", next to a red grunt in
    front, a red archer at the back, a blue ally and a fallen red scout. *)
Definition fresh (className : string) : World :=
  {| w_turn := 0;
     w_class := className;
     w_player := O;
     w_characters :=
       [ mk_character "hero" BLUE FRONT 0%nat 100 100 50 1 10;
         mk_character "grunt" RED FRONT 0%nat 30 30 0 1 5;
         mk_character "archer" RED BACK 0%nat 20 20 0 2 5;
         mk_character "ally" BLUE BACK 0%nat 40 40 0 1 5;
         mk_character "scout" RED FRONT 0%nat 0 25 0 1 5;
         mk_character "guard" RED FRONT 1%nat 60 60 0 1 8 ];
     w_skills :=
       [ mk_skill 0%nat "strike" SINGLE RED 10 1 0 15;
         mk_skill 0%nat "bomb" ANY_ROW RED 20 2 0 10;
         mk_skill 0%nat "roar" NO_TARGET RED 5 1 0 2;
         mk_skill 0%nat "nova" SINGLE RED 10 3 2 40 ];
     w_nodes :=
       [ {| nd_name := "Base"; nd_exits := [("red", 1%nat); ("east", 1%nat)] |};
         {| nd_name := "RedCamp"; nd_exits := [("blue", 0%nat)] |} ] |}.

#[global] Instance engine : Engine World := {
  player := w_player;
  commands := fun _ =>
    [HelpCommand; InfoCommand; LookCommand; DirectionsCommand; WaitCommand;
     GoCommand; MoveCommand; AttackCommand; UseCommand; RestartCommand];
  infos := fun _ => [("rows", "Front rows are closer to the enemy.")];
  infos_at := fun _ topic =>
    if (topic =? "rows")%string then Some "Front rows are closer to the enemy."
    else None;
  moveCharacter := fun c d w =>
    with_characters w (update c (set_ch_node d) (w_characters w));
  placeCharacter := fun c p w =>
    with_characters w (update c (set_ch_place p) (w_characters w));
  nextTurn := step;
  restart := fun className _ => fresh className;
  isAlive := alive;
  team := fun w c => ch_team (character w c);
  place := fun w c => ch_place (character w c);
  placeName := fun w c =>
    match ch_place (character w c) with FRONT => "front" | BACK => "back" end;
  name := fun w c _ => ch_name (character w c);
  level := fun w c => ch_level (character w c);
  hp := fun w c => ch_hp (character w c);
  maxHP := fun w c => ch_maxHP (character w c);
  range := fun w c => ch_range (character w c);
  mana := fun w c => ch_mana (character w c);
  set_mana := fun c v w =>
    with_characters w (update c (set_ch_mana v) (w_characters w));
  node := fun w c => ch_node (character w c);
  skill := find_skill;
  attack := strike;
  nodeName := fun w n => nd_name (nth n (w_nodes w) nowhere);
  characters := roster;
  characterAt := roster_at;
  destination := exit_to;
  paths := fun w n => merge_paths (nd_exits (nth n (w_nodes w) nowhere)) [];
  distanceBetween := fun w _ a b => distance w a b;
  usable := ready;
  target := fun w s => sk_target (skill_data w s);
  targetTeam := fun w s => sk_targetTeam (skill_data w s);
  manaCost := fun w s => sk_manaCost (skill_data w s);
  targets_character := single_targets;
  targets_place := row_targets;
  targets_none := own_targets;
  useOn := apply_skill
}.

(** A session at the start of a warrior's game. *)
Definition start : Session World := mkSession (fresh "warrior") false.

(** The same game after the player fell. *)
Definition fallen : Session World :=
  mkSession (with_characters (fresh "warrior")
               (update 0 (set_hp 0) (w_characters (fresh "warrior")))) false.

End Demo.

(** ** Vocabulary of the statements *)

(** The commands section 4.5 lets a dead player run. *)
Definition legal_while_dead (cmd : TMCommand) : bool :=
  match cmd with
  | HelpCommand | InfoCommand | RestartCommand => true
  | _ => false
  end.

(** The commands whose [exec] opens with the [player()->isAlive()] test. *)
Definition checks_isAlive (cmd : TMCommand) : bool :=
  match cmd with
  | LookCommand | DirectionsCommand | GoCommand | MoveCommand
  | AttackCommand | UseCommand => true
  | _ => false
  end.

Definition starts_with_digit (s : string) : bool :=
  match s with
  | String c _ => isdigit c
  | EmptyString => false
  end.

(** Whether [std::stoi] finds a number to convert at the head of the
    string: a digit, after optional white space and one optional sign. *)
Definition starts_with_number (str : string) : bool :=
  starts_with_digit (snd (strip_sign (skip_spaces str))).

Definition is_restart (c : Call) : bool :=
  match c with CRestart _ => true | _ => false end.

(** A run that only reported: the session is as it was and every call
    made was a [print]. *)
Definition reports_only {World A : Type} (r : Result World A)
  (s : Session World) : Prop :=
  session_of r = s /\ only_prints (log_of r) = true.



Section SpecSide.

Context {World : Type} {E : Engine World}.

(** Modelled from the spec: [TextMoba::moveCharacter], declared in
    text_moba.h and defined outside commands.cpp.  Section 4.6: the
    character leaves its node's roster for the destination's and its node
    reference is updated; nothing else happens, so the player is who it
    was and no turn has passed.  [turn] is the turn counter. *)
Definition moveCharacter_contract (turn : World -> Z) (w : World)
  (c : Character) (dest : MapNode) : Prop :=
  let moved := moveCharacter c dest w in
  player moved = player w /\ node moved c = dest /\ turn moved = turn w.

(** Modelled from the spec: [TextMoba::nextTurn], declared in text_moba.h
    and defined outside commands.cpp.  Section 4.6: world time advances
    by one discrete unit (countdowns, cooldowns and periodic effects come
    with it); the step does not take the player to another node. *)
Definition nextTurn_contract (turn : World -> Z) (w : World) : Prop :=
  let stepped := nextTurn w in
  turn stepped = turn w + 1 /\ player stepped = player w
  /\ node stepped (player w) = node w (player w).

(** Modelled from the spec: [MapNode::characterAt], defined outside
    commands.cpp.  Section 4.2 and property 8.2: a display index beyond
    the current roster is answered with no character. *)
Definition characterAt_contract (w : World) (nd : MapNode) : Prop :=
  forall i : Z,
    Z.of_nat (List.length (characters w nd)) <= i -> characterAt w nd i = None.

(** The line [look] prints for the character [c] it numbers [i], at the
    node [nodeSP]. *)
Definition look_row (w : World) (nodeSP : MapNode) (i : Z) (c : Character)
  : list PrintArg :=
  [PS "  "; PN i; PS ": ";
   PS "["; PS (placeName w c); PS "] "; PS (name w c false); PS " (lvl ";
   PN (level w c + 1); PS ", "; PN (hp w c); PS " / "; PN (maxHP w c);
   PS ")";
   PS " dist: "; PN (distanceBetween w nodeSP (player w) c)].

(** The spec's "target resolution" of a [use] line (sections 4.4 and 6):
    the vector of targets the arguments select for the skill's targeting
    mode, empty when they select none.  Single: the index must name a
    living character of the skill's target team, and the skill keeps it
    if in range.  AnyRow: the row named.  Otherwise the skill's own
    rule. *)
Definition spec_target_resolution (w : World) (skillSP : Skill)
  (args : list string) : list Character :=
  match target w skillSP with
  | SINGLE =>
      match args with
      | [_; _; a2] =>
          match stoi a2 with
          | StoiValue n =>
              match characterAt w (node w (player w)) (to_unsigned n) with
              | Some t =>
                  if isAlive w t && Team_eqb (team w t) (targetTeam w skillSP)
                  then targets_character w skillSP t
                  else []
              | None => []
              end
          | _ => []
          end
      | _ => []
      end
  | ANY_ROW =>
      match args with
      | [_; _; a2] =>
          if (a2 =? "front")%string then targets_place w skillSP FRONT
          else if (a2 =? "back")%string then targets_place w skillSP BACK
          else []
      | _ => []
      end
  | NO_TARGET => targets_none w skillSP
  end.

(** The character an [attack] index resolves to, when it is one the
    spec lets the player attack: it exists, is alive, is not on the
    player's team and stands at a distance of at most the player's
    range. *)
Definition spec_attack_target (w : World) (index : Z) : option Character :=
  let p := player w in
  match characterAt w (node w p) index with
  | Some t =>
      if isAlive w t
         && negb (Team_eqb (team w t) (team w p))
         && (distanceBetween w (node w p) p t <=? range w p)
      then Some t
      else None
  | None => None
  end.

(** The spec's "successful use invocation": a living player names a skill
    it owns, the skill is usable and target resolution yields a non-empty
    vector.  The skill and the vector, when it is one. *)
Definition spec_successful_use (w : World) (args : list string)
  : option (Skill * list Character) :=
  if isAlive w (player w) then
    match nth_error args 1 with
    | Some nm =>
        match skill w (player w) nm with
        | Some skillSP =>
            if usable w skillSP then
              match spec_target_resolution w skillSP args with
              | [] => None
              | targets => Some (skillSP, targets)
              end
            else None
        | None => None
        end
    | None => None
    end
  else None.

End SpecSide.

(** ** Running the monad *)

Section Run.

Context {World : Type} {E : Engine World}.

Lemma after_nil {A} (r : Result World A) : after [] r = r.
Proof. destruct r; reflexivity. Qed.

Lemma after_after {A} (l1 l2 : list Call) (r : Result World A) :
  after l1 (after l2 r) = after (l1 ++ l2)%list r.
Proof. destruct r; simpl; rewrite app_assoc; reflexivity. Qed.

Lemma session_of_after {A} (l : list Call) (r : Result World A) :
  session_of (after l r) = session_of r.
Proof. destruct r; reflexivity. Qed.

Lemma log_of_after {A} (l : list Call) (r : Result World A) :
  log_of (after l r) = (l ++ log_of r)%list.
Proof. destruct r; reflexivity. Qed.

Lemma bind_bind {A B C} (m : M World A) (f : A -> M World B) (g : B -> M World C)
  (s : Session World) :
  bind (bind m f) g s = bind m (fun x => bind (f x) g) s.
Proof.
  unfold bind. destruct (m s) as [a s1 l1|e s1 l1]; [|reflexivity].
  destruct (f a s1) as [b s2 l2|e s2 l2]; simpl; [|reflexivity].
  rewrite after_after. reflexivity.
Qed.

Lemma bind_ret {A B} (a : A) (k : A -> M World B) (s : Session World) :
  bind (ret a) k s = k a s.
Proof. unfold bind, ret. apply after_nil. Qed.

Lemma bind_reads {A B} (f : World -> A) (k : A -> M World B) (s : Session World) :
  bind (reads f) k s = k (f (world s)) s.
Proof. unfold bind, reads. apply after_nil. Qed.

Lemma bind_print {B} (line : list PrintArg) (k : unit -> M World B) (s : Session World) :
  bind (print line) k s = after [CPrint line] (k tt s).
Proof. reflexivity. Qed.

Lemma bind_call {B} (c : Call) (f : World -> World) (k : unit -> M World B)
  (s : Session World) :
  bind (call c f) k s = after [c] (k tt (set_world (f (world s)) s)).
Proof. reflexivity. Qed.

Lemma bind_throw {A B} (e : Failure) (k : A -> M World B) (s : Session World) :
  bind (throw e) k s = Stop e s [].
Proof. reflexivity. Qed.

Lemma bind_get_readClass {B} (k : bool -> M World B) (s : Session World) :
  bind get_readClass k s = k (readClass s) s.
Proof. unfold bind, get_readClass. apply after_nil. Qed.

Lemma bind_put_readClass {B} (b : bool) (k : unit -> M World B) (s : Session World) :
  bind (put_readClass b) k s = k tt (set_readClass b s).
Proof. unfold bind, put_readClass. apply after_nil. Qed.

Lemma set_world_same (s : Session World) : set_world (world s) s = s.
Proof. destruct s; reflexivity. Qed.

End Run.

Create Rewrite HintDb run.

#[local] Hint Rewrite @bind_bind @bind_ret @bind_reads @bind_print @bind_call @bind_throw
  @bind_get_readClass @bind_put_readClass @after_nil @after_after : run.

(** Unfold one step of a command and the binds it starts with. *)
Ltac run :=
  repeat (autorewrite with run;
          cbn [after app ret at_ nth_error List.length Nat.eqb Nat.ltb Nat.leb
               negb andb orb nth world readClass set_world set_readClass]);
  rewrite ?app_nil_r.

(** Unfold the monad all the way down to the tests on the world. *)
Ltac crunch :=
  cbv beta iota zeta delta
    [bind after ret reads call print throw at_ get_readClass put_readClass
     negb andb orb];
  cbn [app nth_error nth List.length Nat.eqb Nat.ltb Nat.leb
       world readClass set_world set_readClass session_of log_of].

(** Split on the next test a stuck run waits for. *)
Ltac next_case :=
  match goal with
  | |- context [match ?x with _ => _ end] =>
      lazymatch x with
      | context [match _ with _ => _ end] => fail
      | _ => destruct x eqn:?
      end
  end.

Ltac all_cases := crunch; repeat (next_case; crunch).

Section MoveProofs.

Context {World : Type} {E : Engine World}.

(** C9.  [move front|back] by a living player: when the row asked for is
    the row the player stands in, the command prints its no-op line and
    returns with the session as it was (the row is unchanged and
    [nextTurn] is not called); otherwise it calls [placeCharacter] with
    the new row and then [nextTurn], once. *)
Theorem move_front_back (s : Session World) (a0 a1 : string) :
  isAlive (world s) (player (world s)) = true ->
  a1 = "front" \/ a1 = "back" ->
  let w := world s in
  let requested := if (a1 =? "front")%string then FRONT else BACK in
  (place w (player w) = requested ->
     MoveCommand_exec [a0; a1] s =
       Done true s [CPrint [PS "You already are at the "; PS a1; PS " row."]])
  /\
  (place w (player w) <> requested ->
     MoveCommand_exec [a0; a1] s =
       Done true
         (set_world (nextTurn (placeCharacter (player w) requested w)) s)
         [CPlaceCharacter (player w) requested; CNextTurn]).
Proof.
  intros Halive Harg w requested.
  assert (Hok : (negb (a1 =? "front")%string && negb (a1 =? "back")%string) = false).
  { destruct Harg; subst a1; reflexivity. }
  unfold MoveCommand_exec, player_isAlive.
  split; intros Hplace; run; rewrite Halive; run; rewrite Hok; run;
    fold w; fold requested.
  - rewrite Hplace. destruct requested; reflexivity.
  - destruct (Place_eqb requested (place w (player w))) eqn:Heq.
    + exfalso. apply Hplace.
      destruct requested, (place w (player w)); simpl in Heq; congruence.
    + run. reflexivity.
Qed.

End MoveProofs.

Lemma move_front_back_witness :
  place (world Demo.start) (player (world Demo.start)) <> BACK /\
  MoveCommand_exec ["move"; "back"] Demo.start =
    Done true
      (set_world (nextTurn (placeCharacter 0%nat BACK (world Demo.start))) Demo.start)
      [CPlaceCharacter 0%nat BACK; CNextTurn].
Proof.
  assert (H : place (world Demo.start) (player (world Demo.start)) <> BACK)
    by (vm_compute; discriminate).
  split; [exact H|].
  exact (proj2 (move_front_back Demo.start "move" "back" eq_refl
                  (or_intror eq_refl)) H).
Defined.

Section LookProofs.

Context {World : Type} {E : Engine World}.

Lemma look_characters_prints (cs : list Character) :
  forall (nodeSP : MapNode) (i : Z) (s : Session World),
  exists log,
    look_characters nodeSP i cs s = Done tt s log /\ only_prints log = true.
Proof.
  induction cs as [|c rest IH]; intros nodeSP i s; simpl.
  - exists []. split; reflexivity.
  - destruct (IH nodeSP (to_unsigned (i + 1)) s) as [log [Hrun Hlog]].
    run. rewrite Hrun. simpl. eexists. split; [reflexivity|].
    simpl. exact Hlog.
Qed.

(** [look] is a pure report: it always returns [true], leaves the session
    alone and only prints. *)
Lemma LookCommand_exec_prints (args : list string) (s : Session World) :
  exists log,
    LookCommand_exec args s = Done true s log /\ only_prints log = true.
Proof.
  unfold LookCommand_exec, player_isAlive. run.
  destruct (isAlive (world s) (player (world s))); run.
  - destruct (List.length args =? 1)%nat; run.
    + destruct (look_characters_prints
                  (characters (world s) (node (world s) (player (world s))))
                  (node (world s) (player (world s))) 0 s) as [log [Hrun Hlog]].
      unfold bind at 1. rewrite Hrun. run.
      eexists. split; [reflexivity|]. simpl.
      exact Hlog.
    + eexists. split; reflexivity.
  - eexists. split; reflexivity.
Qed.

End LookProofs.

Section GoProofs.

Context {World : Type} {E : Engine World}.

(** C8.  [go <direction>] by a living player, when the lower-cased
    direction is no exit of the player's node: the command prints the
    "Unknown direction" line and returns with the session as it was, so
    the player's node is the same and neither [moveCharacter] nor
    [nextTurn] was called. *)
Theorem go_unknown_direction (s : Session World) (a0 a1 : string) :
  let w := world s in
  isAlive w (player w) = true ->
  destination w (node w (player w)) (toLower a1) = None ->
  GoCommand_exec [a0; a1] s =
    Done true s [CPrint [PS ("Unknown direction " ++ dq); PS (toLower a1); PS dq]]
  /\ node (world (session_of (GoCommand_exec [a0; a1] s)))
          (player (world (session_of (GoCommand_exec [a0; a1] s))))
     = node w (player w)
  /\ count_calls is_moveCharacter (log_of (GoCommand_exec [a0; a1] s)) = 0%nat
  /\ count_calls is_nextTurn (log_of (GoCommand_exec [a0; a1] s)) = 0%nat.
Proof.
  intros w Halive Hdest.
  assert (Hrun : GoCommand_exec [a0; a1] s =
    Done true s [CPrint [PS ("Unknown direction " ++ dq); PS (toLower a1); PS dq]]).
  { unfold GoCommand_exec, player_isAlive. run. fold w.
    rewrite Halive. run. fold w. rewrite Hdest. run. reflexivity. }
  rewrite Hrun. repeat split.
Qed.

(** C2.  [go <direction>] by a living player, when the lower-cased
    direction is an exit of the player's node: the command calls
    [moveCharacter(player, destination)], then runs the command line
    "look", then calls [nextTurn] once, in that order, and returns [true].
    The look in between only prints.  With [moveCharacter] and [nextTurn]
    doing on this world what section 4.6 says of them, the player's node
    becomes the destination and the turn counter is one higher. *)
Theorem go_known_direction (turn : World -> Z) (s : Session World)
  (a0 a1 : string) (dest : MapNode) :
  let w := world s in
  let p := player w in
  let moved := moveCharacter p dest w in
  isAlive w p = true ->
  destination w (node w p) (toLower a1) = Some dest ->
  moveCharacter_contract turn w p dest ->
  nextTurn_contract turn moved ->
  exists look_log,
    LookCommand_exec ["look"] (set_world moved s)
      = Done true (set_world moved s) look_log
    /\ only_prints look_log = true
    /\ GoCommand_exec [a0; a1] s =
         Done true (set_world (nextTurn moved) s)
           (CMoveCharacter p dest :: CExecCommand "look" :: look_log ++ [CNextTurn])
    /\ count_calls is_moveCharacter (log_of (GoCommand_exec [a0; a1] s)) = 1%nat
    /\ count_calls is_nextTurn (log_of (GoCommand_exec [a0; a1] s)) = 1%nat
    /\ node moved (player moved) = dest
    /\ (let final := world (session_of (GoCommand_exec [a0; a1] s)) in
        node final (player final) = dest /\ turn final = turn w + 1).
Proof.
  intros w p moved Halive Hdest [Hp [Hnode Hturn]] [Hstep [Hp' Hnode']].
  fold moved in Hp, Hnode, Hturn. rewrite Hp in Hp', Hnode'. fold p in Hp, Hp', Hnode'.
  destruct (LookCommand_exec_prints ["look"] (set_world moved s))
    as [look_log [Hlook Hprints]].
  exists look_log.
  assert (Hrun : GoCommand_exec [a0; a1] s =
    Done true (set_world (nextTurn moved) s)
      (CMoveCharacter p dest :: CExecCommand "look" :: look_log ++ [CNextTurn])).
  { unfold GoCommand_exec, player_isAlive. run. fold w. fold p.
    rewrite Halive. run. fold w. fold p. rewrite Hdest. run.
    fold w. fold p. fold moved.
    unfold bind at 1, execCommand_look. rewrite Hlook. run.
    reflexivity. }
  rewrite Hrun.
  assert (Hnone : forall q, q (CPrint []) = false ->
            (forall c, is_print c = true -> q c = q (CPrint [])) ->
            filter q look_log = []).
  { intros q Hq Hall. clear - Hprints Hq Hall.
    induction look_log as [|c l IH]; [reflexivity|].
    simpl in Hprints. apply andb_prop in Hprints. destruct Hprints as [Hc Hl].
    simpl. rewrite (Hall c Hc), Hq. apply IH; exact Hl. }
  repeat split; try assumption.
  - unfold count_calls. simpl. rewrite filter_app. simpl.
    rewrite Hnone; [reflexivity|reflexivity|].
    intros c Hc. destruct c; try discriminate; reflexivity.
  - unfold count_calls. simpl. rewrite filter_app. simpl.
    rewrite Hnone; [reflexivity|reflexivity|].
    intros c Hc. destruct c; try discriminate; reflexivity.
  - rewrite Hp. exact Hnode.
  - simpl. rewrite Hp', Hnode'. exact Hnode.
  - simpl. rewrite Hstep, Hturn. reflexivity.
Qed.

End GoProofs.

Lemma go_unknown_direction_witness :
  GoCommand_exec ["go"; "North"] Demo.start =
    Done true Demo.start
      [CPrint [PS ("Unknown direction " ++ dq); PS "north"; PS dq]].
Proof.
  refine (proj1 (go_unknown_direction Demo.start "go" "North" _ _));
    reflexivity.
Defined.

Lemma go_known_direction_witness :
  exists look_log,
    GoCommand_exec ["go"; "Red"] Demo.start =
      Done true
        (set_world (nextTurn (moveCharacter 0%nat 1%nat (world Demo.start))) Demo.start)
        (CMoveCharacter 0%nat 1%nat :: CExecCommand "look" :: look_log ++ [CNextTurn])
    /\ Demo.w_turn (world (session_of (GoCommand_exec ["go"; "Red"] Demo.start))) = 1.
Proof.
  assert (H : isAlive (world Demo.start) (player (world Demo.start)) = true)
    by reflexivity.
  assert (Hmove : moveCharacter_contract Demo.w_turn (world Demo.start) 0%nat 1%nat)
    by (repeat split).
  assert (Hstep : nextTurn_contract Demo.w_turn
                    (moveCharacter 0%nat 1%nat (world Demo.start)))
    by (repeat split).
  destruct (go_known_direction Demo.w_turn Demo.start "go" "Red" 1%nat
              H eq_refl Hmove Hstep)
    as [look_log [_ [_ [Hrun [_ [_ [_ [_ Hturn]]]]]]]].
  exists look_log. split; [exact Hrun | exact Hturn].
Defined.

Section DeadProofs.

Context {World : Type} {E : Engine World}.

(** C5, as the code has it.  Of the commands that are not legal while
    dead, all but [wait] open with the liveness test: run by a dead
    player, whatever the arguments, each prints the one fixed line and
    returns [true] with the session as it was.  [wait], the command that
    line sends the player to, has no such test and steps the turn. *)
Theorem dead_player_short_circuit (cmd : TMCommand) (args : list string)
  (s : Session World) :
  legal_while_dead cmd = false ->
  isAlive (world s) (player (world s)) = false ->
  (cmd <> WaitCommand ->
     checks_isAlive cmd = true /\
     exec cmd args s = Done true s [CPrint [PS dead_msg]])
  /\
  (cmd = WaitCommand ->
     exec cmd args s =
       Done true (set_world (nextTurn (world s)) s) [CNextTurn]).
Proof.
  intros Hlegal Hdead. split.
  - intros Hwait.
    destruct cmd; try discriminate Hlegal; try (exfalso; apply Hwait; reflexivity);
      (split; [reflexivity|]); simpl;
      [ unfold LookCommand_exec | unfold DirectionsCommand_exec
      | unfold GoCommand_exec | unfold MoveCommand_exec
      | unfold AttackCommand_exec | unfold UseCommand_exec ];
      unfold player_isAlive; run; rewrite Hdead; run; reflexivity.
  - intros ->. reflexivity.
Qed.

End DeadProofs.

Lemma dead_player_short_circuit_witness :
  exec AttackCommand ["attack"; "1"] Demo.fallen =
    Done true Demo.fallen [CPrint [PS dead_msg]].
Proof.
  refine (proj2 (proj1 (dead_player_short_circuit AttackCommand ["attack"; "1"]
                          Demo.fallen eq_refl eq_refl) _)).
  discriminate.
Defined.

(** C5 as stated fails at [wait]: a dead player's [wait] prints nothing
    and calls [nextTurn]. *)
Lemma dead_player_wait_counterexample :
  legal_while_dead WaitCommand = false /\
  isAlive (world Demo.fallen) (player (world Demo.fallen)) = false /\
  exec WaitCommand ["wait"] Demo.fallen =
    Done true (set_world (nextTurn (world Demo.fallen)) Demo.fallen) [CNextTurn] /\
  exec WaitCommand ["wait"] Demo.fallen <>
    Done true Demo.fallen [CPrint [PS dead_msg]].
Proof.
  repeat split. discriminate.
Qed.

Section RestartProofs.

Context {World : Type} {E : Engine World}.

(** C4.  The restart dialogue.  Outside a dialogue, [restart] without
    argument prints the prompt, remembers that it waits for a class and
    returns [false].  In the dialogue, a line that is one of the three
    class names calls [tm()->restart] with it, ends the dialogue and
    returns [true]; any other line prints a diagnostic and returns
    [false] with the dialogue still open and the world as it was. *)
Theorem restart_dialogue (w : World) :
  (forall a0,
     RestartCommand_exec [a0] (mkSession w false) =
       Done false (mkSession w true)
         [CPrint [PS "Choose your class: [ warrior, ranger, mage ]"]])
  /\
  (forall line,
     line = "warrior" \/ line = "ranger" \/ line = "mage" ->
     RestartCommand_exec [line] (mkSession w true) =
       Done true (mkSession (restart line w) false) [CRestart line])
  /\
  (forall line,
     line <> "warrior" -> line <> "ranger" -> line <> "mage" ->
     RestartCommand_exec [line] (mkSession w true) =
       Done false (mkSession w true)
         [CPrint [PS "Unknown class name "; PS line];
          CPrint [PS "Please enter one class name: warrior, ranger or mage."]])
  /\
  (forall args,
     List.length args <> 1%nat ->
     RestartCommand_exec args (mkSession w true) =
       Done false (mkSession w true)
         [CPrint [PS "Please enter one class name: warrior, ranger or mage."]]).
Proof.
  repeat split.
  - intros line Hline. unfold RestartCommand_exec, RestartCommand_choose. run.
    assert (Hclass : is_className line = true)
      by (destruct Hline as [->|[->| ->]]; reflexivity).
    rewrite Hclass. run. reflexivity.
  - intros line Hw Hr Hm. unfold RestartCommand_exec, RestartCommand_choose. run.
    assert (Hclass : is_className line = false).
    { unfold is_className.
      apply String.eqb_neq in Hw, Hr, Hm. rewrite Hw, Hr, Hm. reflexivity. }
    rewrite Hclass. run. reflexivity.
  - intros args Hlen. unfold RestartCommand_exec. run.
    apply Nat.eqb_neq in Hlen. rewrite Hlen. run. reflexivity.
Qed.

End RestartProofs.

Lemma restart_dialogue_witness :
  RestartCommand_exec ["restart"] Demo.start =
    Done false (mkSession (world Demo.start) true)
      [CPrint [PS "Choose your class: [ warrior, ranger, mage ]"]]
  /\
  RestartCommand_exec ["mage"] (mkSession (world Demo.start) true) =
    Done true (mkSession (Demo.fresh "mage") false) [CRestart "mage"]
  /\
  RestartCommand_exec ["wizard"] (mkSession (world Demo.start) true) =
    Done false (mkSession (world Demo.start) true)
      [CPrint [PS "Unknown class name "; PS "wizard"];
       CPrint [PS "Please enter one class name: warrior, ranger or mage."]].
Proof.
  destruct (restart_dialogue (world Demo.start)) as [H1 [H2 [H3 _]]].
  split; [exact (H1 "restart")|].
  split; [exact (H2 "mage" (or_intror (or_intror eq_refl)))|].
  apply H3; discriminate.
Defined.

Section UseProofs.

Context {World : Type} {E : Engine World}.

(** C3.  Every [use] line goes one of two ways.  When it is a successful
    invocation (the skill named exists, is usable and target resolution
    yields a non-empty vector) the command takes the skill's mana cost
    off the caster's mana, once and itself, then calls [useOn] on the
    targets, then [nextTurn], and returns [true].  On every other path
    (unknown or unusable skill, malformed or invalid index, wrong team,
    out of range, no target) the session is left as it was and nothing
    but printing was done: no mana taken, no [useOn], no [nextTurn]. *)
Theorem use_deducts_mana_once (s : Session World) (args : list string) :
  let w := world s in
  let p := player w in
  let r := UseCommand_exec args s in
  match spec_successful_use w args with
  | Some (skillSP, targets) =>
      r = Done true
            (set_world
               (nextTurn
                  (useOn skillSP targets
                     (set_mana p (mana w p - manaCost w skillSP) w))) s)
            [CSubMana p (manaCost w skillSP); CUseOn skillSP targets; CNextTurn]
  | None =>
      session_of r = s
      /\ only_prints (log_of r) = true
      /\ count_calls is_subMana (log_of r) = 0%nat
      /\ count_calls is_useOn (log_of r) = 0%nat
      /\ count_calls is_nextTurn (log_of r) = 0%nat
  end.
Proof.
  intros w p r. subst r p w.
  unfold spec_successful_use, spec_target_resolution, UseCommand_exec,
    UseCommand_commit, player_isAlive.
  destruct args as [|a0 [|nm [|a2 [|a3 rest]]]]; all_cases;
    try discriminate; try congruence; repeat split; reflexivity.
Qed.

End UseProofs.

(** ** [std::stoi] *)

Lemma read_digits_count (s : string) :
  forall (acc : Z) (count : nat), (count <= snd (read_digits acc count s))%nat.
Proof.
  induction s as [|c rest IH]; intros acc count; simpl.
  - apply Nat.le_refl.
  - destruct (isdigit c); simpl.
    + apply Nat.le_trans with (S count); [apply Nat.le_succ_diag_r | apply IH].
    + apply Nat.le_refl.
Qed.

(** [std::stoi] throws [std::invalid_argument] exactly when no number
    starts the string. *)
Lemma stoi_invalid_argument (str : string) :
  stoi str = StoiInvalidArgument <-> starts_with_number str = false.
Proof.
  unfold stoi, starts_with_number, starts_with_digit.
  destruct (strip_sign (skip_spaces str)) as [negative body]. simpl.
  destruct body as [|c rest]; simpl.
  - split; reflexivity.
  - destruct (isdigit c).
    + match goal with
      | |- context [read_digits ?acc ?k rest] =>
          pose proof (read_digits_count rest acc k) as Hcount;
          destruct (read_digits acc k rest) as [magnitude count]
      end.
      simpl in Hcount. destruct count as [|count]; [inversion Hcount|].
      split; [|discriminate].
      match goal with
      | |- (if ?c then _ else _) = _ -> _ => destruct c
      end; discriminate.
    + split; reflexivity.
Qed.

(** Digits are read to the first character that is not one. *)
Lemma read_digits_app (num tail : string) :
  all_digits num = true ->
  starts_with_digit tail = false ->
  forall (acc : Z) (count : nat),
    read_digits acc count (num ++ tail) = read_digits acc count num.
Proof.
  intros Hnum Htail. induction num as [|c rest IH]; intros acc count; simpl.
  - destruct tail as [|c rest]; [reflexivity|].
    simpl in *. rewrite Htail. reflexivity.
  - simpl in Hnum. apply andb_prop in Hnum. destruct Hnum as [Hc Hrest].
    rewrite Hc. apply IH. exact Hrest.
Qed.

Lemma isdigit_not_isspace (c : ascii) : isdigit c = true -> isspace c = false.
Proof.
  unfold isdigit, isspace. intros H.
  apply andb_prop in H. destruct H as [Hlo Hhi].
  apply N.leb_le in Hlo.
  apply orb_false_intro.
  - apply N.eqb_neq. lia.
  - apply andb_false_intro2. apply N.leb_gt. lia.
Qed.

(** [std::stoi] reads a number followed by other text as the number. *)
Lemma stoi_ignores_tail (num tail : string) :
  spec_is_number num = true ->
  starts_with_digit tail = false ->
  stoi (num ++ tail) = stoi num.
Proof.
  intros Hnum Htail.
  destruct num as [|c rest]; [discriminate|].
  unfold spec_is_number, strip_sign in Hnum.
  unfold stoi. simpl append. cbn [skip_spaces].
  destruct (Ascii.eqb_spec c "-") as [->|Hminus].
  - simpl in Hnum. cbn [isspace]. simpl.
    destruct rest as [|d rest]; [discriminate|].
    rewrite (read_digits_app (String d rest) tail Hnum Htail). reflexivity.
  - destruct (Ascii.eqb_spec c "+") as [->|Hplus].
    + simpl in Hnum. simpl.
      destruct rest as [|d rest]; [discriminate|].
      rewrite (read_digits_app (String d rest) tail Hnum Htail). reflexivity.
    + simpl in Hnum.
      assert (Hc : isdigit c = true).
      { apply andb_prop in Hnum. apply Hnum. }
      rewrite (isdigit_not_isspace c Hc).
      unfold strip_sign.
      apply Ascii.eqb_neq in Hminus, Hplus. rewrite Hminus, Hplus.
      change (String c (rest ++ tail)) with (String c rest ++ tail).
      rewrite (read_digits_app (String c rest) tail Hnum Htail). reflexivity.
Qed.

(** What [std::stoi] returns is an [int]. *)
Lemma stoi_value_range (str : string) (n : Z) :
  stoi str = StoiValue n -> INT_MIN <= n <= INT_MAX.
Proof.
  unfold stoi.
  destruct (strip_sign (skip_spaces str)) as [negative body].
  destruct (read_digits 0 0 body) as [magnitude count].
  destruct count as [|count]; [discriminate|].
  destruct ((INT_MIN <=? (if negative then - magnitude else magnitude))
            && ((if negative then - magnitude else magnitude) <=? INT_MAX)) eqn:Hrange;
    [|discriminate].
  intros Heq. injection Heq as <-.
  apply andb_prop in Hrange. destruct Hrange as [Hlo Hhi].
  apply Z.leb_le in Hlo, Hhi. split; assumption.
Qed.

(** A negative [int] converted to [unsigned] is at least 2^31. *)
Lemma to_unsigned_negative (n : Z) :
  INT_MIN <= n < 0 -> 2147483648 <= to_unsigned n < 4294967296.
Proof.
  unfold INT_MIN, to_unsigned. intros Hn.
  replace n with (n + 4294967296 + (-1) * 4294967296) by lia.
  rewrite Z.mod_add by lia. rewrite Z.mod_small; lia.
Qed.

Example stoi_examples :
  stoi "7" = StoiValue 7 /\ stoi "-1" = StoiValue (-1) /\
  stoi "1abc" = StoiValue 1 /\ stoi "abc" = StoiInvalidArgument /\
  stoi "-" = StoiInvalidArgument /\ stoi "2147483647" = StoiValue 2147483647 /\
  stoi "2147483648" = StoiOutOfRange /\ stoi "99999999999" = StoiOutOfRange.
Proof. repeat split. Qed.

Section AttackProofs.

Context {World : Type} {E : Engine World}.

(** C1.  [attack <index>] by a living player, by what [std::stoi] makes of
    the index.  On an [int], the command calls [player()->attack(target)]
    and then [nextTurn] exactly when the index resolves to a character
    that exists, is alive, is not on the player's team and is within the
    player's range; when one of the checks fails it prints one of three
    fixed lines and leaves the session as it was.  On a string without a number it
    prints its "I don't understand" line.  On a number too large for an
    [int], [std::stoi] throws [std::out_of_range], which the [catch] of
    [std::invalid_argument] lets through: the command prints nothing and
    does not return. *)
Theorem attack_resolution (s : Session World) (a0 a1 : string) :
  let w := world s in
  let p := player w in
  let r := AttackCommand_exec [a0; a1] s in
  isAlive w p = true ->
  match stoi a1 with
  | StoiValue n =>
      match spec_attack_target w (to_unsigned n) with
      | Some t =>
          r = Done true (set_world (nextTurn (attack p t w)) s)
                [CAttack p t; CNextTurn]
      | None =>
          exists msg,
            In msg ["Invalid target."; "You cannot attack allies.";
                    "Target out of range."]
            /\ r = Done true s [CPrint [PS msg]]
      end
  | StoiInvalidArgument =>
      r = Done true s [CPrint [PS "I don't understand who you try to attack."]]
  | StoiOutOfRange => r = Stop std_out_of_range s []
  end.
Proof.
  intros w p r Halive. subst r p w.
  unfold AttackCommand_exec, spec_attack_target, player_isAlive.
  crunch. rewrite Halive.
  destruct (stoi a1) as [n| |]; crunch; try reflexivity.
  all_cases; try discriminate; try congruence; try reflexivity;
    try (eexists; split; [|reflexivity]; simpl; tauto);
    repeat match goal with
    | H : (_ >? _) = _ |- _ => rewrite Z.gtb_ltb in H
    | H : (_ <? _) = true |- _ => apply Z.ltb_lt in H
    | H : (_ <? _) = false |- _ => apply Z.ltb_ge in H
    | H : (_ <=? _) = true |- _ => apply Z.leb_le in H
    | H : (_ <=? _) = false |- _ => apply Z.leb_gt in H
    end; lia.
Qed.

End AttackProofs.

(** The defect of C1 at work: the line [attack 99999999999] of a living
    player ends in an exception, with no diagnostic. *)
Lemma attack_resolution_witness :
  AttackCommand_exec ["attack"; "99999999999"] Demo.start =
    Stop std_out_of_range Demo.start [].
Proof.
  assert (H : isAlive (world Demo.start) (player (world Demo.start)) = true)
    by reflexivity.
  exact (attack_resolution Demo.start "attack" "99999999999" H).
Defined.

Section IndexProofs.

Context {World : Type} {E : Engine World}.

(** C7, as the code has it.  [use] by a living player naming a skill it
    owns whose [usable()] is false: the command prints "You can't use
    this skill right now." and returns [true] with the session as it was,
    whatever the other arguments are; no target is resolved, no mana
    taken, [useOn] and [nextTurn] are not called. *)
Theorem unusable_skill_not_used (s : Session World) (a0 nm : string)
  (rest : list string) (skillSP : Skill) :
  let w := world s in
  isAlive w (player w) = true ->
  skill w (player w) nm = Some skillSP ->
  usable w skillSP = false ->
  UseCommand_exec (a0 :: nm :: rest) s =
    Done true s [CPrint [PS "You can't use this skill right now."]].
Proof.
  intros w Halive Hskill Husable. subst w.
  unfold UseCommand_exec, player_isAlive. crunch.
  rewrite Halive, Hskill, Husable. reflexivity.
Qed.

(** Both commands look at the index argument through [std::stoi] only. *)
Lemma AttackCommand_exec_stoi (s : Session World) (a0 x y : string) :
  stoi x = stoi y ->
  AttackCommand_exec [a0; x] s = AttackCommand_exec [a0; y] s.
Proof.
  intros Hxy. unfold AttackCommand_exec, player_isAlive. crunch.
  rewrite Hxy. reflexivity.
Qed.

Lemma UseCommand_exec_stoi (s : Session World) (a0 nm x y : string)
  (skillSP : Skill) :
  skill (world s) (player (world s)) nm = Some skillSP ->
  target (world s) skillSP = SINGLE ->
  stoi x = stoi y ->
  UseCommand_exec [a0; nm; x] s = UseCommand_exec [a0; nm; y] s.
Proof.
  intros Hskill Hmode Hxy. unfold UseCommand_exec, player_isAlive. crunch.
  destruct (isAlive (world s) (player (world s))); crunch; [|reflexivity].
  rewrite Hskill. crunch.
  destruct (usable (world s) skillSP); crunch; [|reflexivity].
  rewrite Hmode. crunch. rewrite Hxy. reflexivity.
Qed.

(** C6, as the code has it.  For a living player, an index argument at
    whose head [std::stoi] finds no number (no digit after optional white
    space and sign) makes [attack], and [use] of a usable Single skill,
    print their "I don't understand" line and return [true] with the
    session as it was.  An index that is a number followed by other text
    is not reported: both commands do with it what they do with the
    number alone. *)
Theorem index_without_number_reported (s : Session World) (a0 : string) :
  let w := world s in
  isAlive w (player w) = true ->
  (forall idx,
     starts_with_number idx = false ->
     AttackCommand_exec [a0; idx] s =
       Done true s [CPrint [PS "I don't understand who you try to attack."]]
     /\
     (forall nm skillSP,
        skill w (player w) nm = Some skillSP ->
        usable w skillSP = true ->
        target w skillSP = SINGLE ->
        UseCommand_exec [a0; nm; idx] s =
          Done true s
            [CPrint [PS "I don't understand who you're trying to attack."]]))
  /\
  (forall num tail,
     spec_is_number num = true ->
     starts_with_digit tail = false ->
     AttackCommand_exec [a0; num ++ tail] s = AttackCommand_exec [a0; num] s
     /\
     (forall nm skillSP,
        skill w (player w) nm = Some skillSP ->
        usable w skillSP = true ->
        target w skillSP = SINGLE ->
        UseCommand_exec [a0; nm; num ++ tail] s =
          UseCommand_exec [a0; nm; num] s)).
Proof.
  intros w Halive. subst w. split.
  - intros idx Hidx. apply stoi_invalid_argument in Hidx. split.
    + unfold AttackCommand_exec, player_isAlive. crunch.
      rewrite Halive, Hidx. reflexivity.
    + intros nm skillSP Hskill Husable Hmode.
      unfold UseCommand_exec, player_isAlive. crunch.
      rewrite Halive, Hskill, Husable, Hmode, Hidx. reflexivity.
  - intros num tail Hnum Htail.
    pose proof (stoi_ignores_tail num tail Hnum Htail) as Hstoi. split.
    + apply AttackCommand_exec_stoi. exact Hstoi.
    + intros nm skillSP Hskill _ Hmode.
      apply (UseCommand_exec_stoi s a0 nm _ _ skillSP Hskill Hmode Hstoi).
Qed.

(** C10, as the code has it.  For a living player, an index argument
    that [std::stoi] reads as a negative [int] becomes an [unsigned] of
    at least 2^31.  With [characterAt] answering no character beyond the
    roster (section 4.2) and a roster of at most 2^31 characters, the
    lookup finds nobody: [attack], and [use] of a usable Single skill,
    print "Invalid target." and return [true] with the session as it
    was. *)
Theorem negative_index_invalid_target (s : Session World) (a0 idx : string)
  (n : Z) :
  let w := world s in
  let p := player w in
  isAlive w p = true ->
  stoi idx = StoiValue n ->
  n < 0 ->
  characterAt_contract w (node w p) ->
  Z.of_nat (List.length (characters w (node w p))) <= 2147483648 ->
  2147483648 <= to_unsigned n
  /\ characterAt w (node w p) (to_unsigned n) = None
  /\ AttackCommand_exec [a0; idx] s = Done true s [CPrint [PS "Invalid target."]]
  /\ (forall nm skillSP,
        skill w p nm = Some skillSP ->
        usable w skillSP = true ->
        target w skillSP = SINGLE ->
        UseCommand_exec [a0; nm; idx] s =
          Done true s [CPrint [PS "Invalid target."]]).
Proof.
  intros w p Halive Hidx Hneg Hbeyond Hsize.
  assert (Hbig : 2147483648 <= to_unsigned n).
  { apply to_unsigned_negative. split; [|exact Hneg].
    apply (stoi_value_range idx n Hidx). }
  assert (Hnone : characterAt w (node w p) (to_unsigned n) = None).
  { apply Hbeyond. lia. }
  subst p w.
  split; [exact Hbig|]. split; [exact Hnone|]. split.
  - unfold AttackCommand_exec, player_isAlive. crunch.
    rewrite Halive, Hidx, Hnone. reflexivity.
  - intros nm skillSP Hskill Husable Hmode.
    unfold UseCommand_exec, player_isAlive. crunch.
    rewrite Halive, Hskill, Husable, Hmode, Hidx, Hnone. reflexivity.
Qed.

End IndexProofs.

Lemma unusable_skill_not_used_witness :
  UseCommand_exec ["use"; "nova"; "1"] Demo.start =
    Done true Demo.start [CPrint [PS "You can't use this skill right now."]].
Proof.
  refine (unusable_skill_not_used Demo.start "use" "nova" ["1"] 3%nat _ _ _);
    reflexivity.
Defined.

(** C7 as stated fails for a dead player: the liveness test comes first
    and its line is the one printed. *)
Lemma unusable_skill_dead_counterexample :
  skill (world Demo.fallen) (player (world Demo.fallen)) "nova" = Some 3%nat /\
  usable (world Demo.fallen) 3%nat = false /\
  UseCommand_exec ["use"; "nova"; "1"] Demo.fallen =
    Done true Demo.fallen [CPrint [PS dead_msg]] /\
  UseCommand_exec ["use"; "nova"; "1"] Demo.fallen <>
    Done true Demo.fallen [CPrint [PS "You can't use this skill right now."]].
Proof.
  repeat split. vm_compute. discriminate.
Qed.

Lemma index_without_number_reported_witness :
  AttackCommand_exec ["attack"; "grunt"] Demo.start =
    Done true Demo.start [CPrint [PS "I don't understand who you try to attack."]]
  /\
  UseCommand_exec ["use"; "strike"; "grunt"] Demo.start =
    Done true Demo.start
      [CPrint [PS "I don't understand who you're trying to attack."]]
  /\
  AttackCommand_exec ["attack"; "1abc"] Demo.start =
    AttackCommand_exec ["attack"; "1"] Demo.start.
Proof.
  assert (Halive : isAlive (world Demo.start) (player (world Demo.start)) = true)
    by reflexivity.
  destruct (index_without_number_reported Demo.start "attack" Halive)
    as [Hattack Htail].
  destruct (index_without_number_reported Demo.start "use" Halive)
    as [Huse _].
  split; [exact (proj1 (Hattack "grunt" eq_refl))|].
  split.
  - apply (proj2 (Huse "grunt" eq_refl) "strike" 0%nat); reflexivity.
  - exact (proj1 (Htail "1" "abc" eq_refl eq_refl)).
Defined.

(** C6 as stated fails on an index that starts with a number and goes on:
    "1abc" is not a number, [std::stoi] reads it as 1, and the grunt at
    index 1 is attacked and the turn stepped.  It also fails for a dead
    player, whose [attack abc] gets the dead player's line. *)
Lemma index_trailing_text_counterexample :
  spec_is_number "1abc" = false /\
  stoi "1abc" = StoiValue 1 /\
  AttackCommand_exec ["attack"; "1abc"] Demo.start =
    Done true
      (set_world (nextTurn (attack 0%nat 1%nat (world Demo.start))) Demo.start)
      [CAttack 0%nat 1%nat; CNextTurn] /\
  hp (world Demo.start) 1%nat = 30 /\
  hp (world (session_of (AttackCommand_exec ["attack"; "1abc"] Demo.start))) 1%nat
    = 20 /\
  spec_is_number "abc" = false /\
  AttackCommand_exec ["attack"; "abc"] Demo.fallen =
    Done true Demo.fallen [CPrint [PS dead_msg]].
Proof.
  repeat split.
Qed.

Lemma negative_index_invalid_target_witness :
  AttackCommand_exec ["attack"; "-1"] Demo.start =
    Done true Demo.start [CPrint [PS "Invalid target."]]
  /\
  UseCommand_exec ["use"; "strike"; "-1"] Demo.start =
    Done true Demo.start [CPrint [PS "Invalid target."]].
Proof.
  assert (Halive : isAlive (world Demo.start) (player (world Demo.start)) = true)
    by reflexivity.
  assert (Hbeyond : characterAt_contract (world Demo.start)
            (node (world Demo.start) (player (world Demo.start)))).
  { intros i Hi. change (Z.of_nat 5 <= i) in Hi.
    change (Demo.roster_at (Demo.fresh "warrior") 0%nat i = None).
    unfold Demo.roster_at.
    destruct (i <? 0) eqn:Hneg; [reflexivity|].
    apply nth_error_None.
    change (List.length (Demo.roster (Demo.fresh "warrior") 0%nat)) with 5%nat.
    lia. }
  assert (Hsize :
    Z.of_nat (List.length (characters (world Demo.start)
                (node (world Demo.start) (player (world Demo.start)))))
    <= 2147483648) by (vm_compute; discriminate).
  destruct (negative_index_invalid_target Demo.start "attack" "-1" (-1)
              Halive eq_refl eq_refl Hbeyond Hsize) as [_ [_ [Hattack _]]].
  destruct (negative_index_invalid_target Demo.start "use" "-1" (-1)
              Halive eq_refl eq_refl Hbeyond Hsize) as [_ [_ [_ Huse]]].
  split; [exact Hattack|].
  apply (Huse "strike" 0%nat); reflexivity.
Defined.

(** C10 as stated fails where an earlier guard answers first: a dead
    player's [attack -1] prints the dead player's line, and a living
    player's [use nova -1], [nova] being a Single skill on cooldown,
    prints that the skill cannot be used; neither prints "Invalid
    target.". *)
Lemma negative_index_dead_counterexample :
  stoi "-1" = StoiValue (-1) /\
  AttackCommand_exec ["attack"; "-1"] Demo.fallen =
    Done true Demo.fallen [CPrint [PS dead_msg]] /\
  AttackCommand_exec ["attack"; "-1"] Demo.fallen <>
    Done true Demo.fallen [CPrint [PS "Invalid target."]] /\
  target (world Demo.start) 3%nat = SINGLE /\
  UseCommand_exec ["use"; "nova"; "-1"] Demo.start =
    Done true Demo.start [CPrint [PS "You can't use this skill right now."]].
Proof.
  repeat split. vm_compute. discriminate.
Qed.

(** ** [join] and [toLower] *)

Lemma string_length_append (a b : string) :
  String.length (a ++ b) = (String.length a + String.length b)%nat.
Proof. induction a as [|c a IH]; simpl; [reflexivity|]. rewrite IH. reflexivity. Qed.

Lemma string_append_assoc (a b c : string) : ((a ++ b) ++ c = a ++ (b ++ c))%string.
Proof. induction a as [|x a IH]; simpl; [reflexivity|]. rewrite IH. reflexivity. Qed.

Lemma join_from_length (sep : string) (xs : list string) :
  String.length (join_from sep xs) =
    (list_sum (map String.length xs) + List.length xs * String.length sep)%nat.
Proof.
  induction xs as [|x rest IH]; simpl; [reflexivity|].
  rewrite !string_length_append, IH. lia.
Qed.

Lemma join_from_app (sep : string) (xs ys : list string) :
  (join_from sep (xs ++ ys)%list = join_from sep xs ++ join_from sep ys)%string.
Proof.
  induction xs as [|x rest IH]; simpl; [reflexivity|].
  rewrite IH, !string_append_assoc. reflexivity.
Qed.

(** [join] writes every element once and the separator between two
    neighbours only: [n] elements take [n - 1] separators, and the empty
    range gives the empty string. *)
Theorem join_length (xs : list string) (sep : string) :
  String.length (join xs sep) =
    (list_sum (map String.length xs)
     + (List.length xs - 1) * String.length sep)%nat.
Proof.
  destruct xs as [|x rest]; simpl; [reflexivity|].
  rewrite string_length_append, join_from_length. lia.
Qed.

(** Joining a range in two pieces: the join of [xs ++ ys] is the join of
    [xs], one separator, and the join of [ys], both pieces non-empty. *)
Theorem join_app (xs ys : list string) (sep : string) :
  xs <> [] -> ys <> [] ->
  (join (xs ++ ys)%list sep = join xs sep ++ sep ++ join ys sep)%string.
Proof.
  intros Hxs Hys.
  destruct xs as [|x xs]; [contradiction|].
  destruct ys as [|y ys]; [contradiction|].
  simpl. rewrite join_from_app. simpl.
  rewrite !string_append_assoc. reflexivity.
Qed.

Lemma join_app_witness :
  join (["help"; "h"] ++ ["?"])%list ", " = "help, h, ?".
Proof.
  rewrite (join_app ["help"; "h"] ["?"] ", "); [reflexivity| |]; discriminate.
Defined.





(** ** The reporting commands *)

Section ReportProofs.

Context {World : Type} {E : Engine World}.

(** A loop whose body only prints, from the world it reads. *)
Lemma for_each_prints {A} (lines : World -> A -> list Call)
  (body : A -> M World unit) (xs : list A) (s : Session World) :
  (forall x, body x s = Done tt s (lines (world s) x)) ->
  for_each xs body s = Done tt s (flat_map (lines (world s)) xs).
Proof.
  intros Hbody. induction xs as [|x rest IH]; simpl; [reflexivity|].
  unfold bind. rewrite Hbody, IH. reflexivity.
Qed.

Lemma flat_map_singleton {A B} (f : A -> B) (xs : list A) :
  flat_map (fun x => [f x]) xs = map f xs.
Proof. induction xs as [|x rest IH]; simpl; [reflexivity|]. rewrite IH. reflexivity. Qed.

Lemma only_prints_app (l1 l2 : list Call) :
  only_prints (l1 ++ l2)%list = only_prints l1 && only_prints l2.
Proof. apply forallb_app. Qed.

Lemma only_prints_flat_map {A} (f : A -> list Call) (xs : list A) :
  (forall x, only_prints (f x) = true) -> only_prints (flat_map f xs) = true.
Proof.
  intros Hf. induction xs as [|x rest IH]; simpl; [reflexivity|].
  rewrite only_prints_app, Hf, IH. reflexivity.
Qed.

Lemma only_prints_no {q : Call -> bool} (l : list Call) :
  (forall c, is_print c = true -> q c = false) ->
  only_prints l = true -> count_calls q l = 0%nat.
Proof.
  intros Hq. unfold count_calls. induction l as [|c l IH]; [reflexivity|].
  simpl. intros H. apply andb_prop in H. destruct H as [Hc Hl].
  rewrite (Hq c Hc). apply IH; exact Hl.
Qed.

(** [help] needs no living player and ignores its arguments: for every
    registered command, in registration order, it prints the aliases
    joined by ", " and then the description, and returns [true] with the
    session as it was. *)
Theorem help_lists_commands (args : list string) (s : Session World) :
  HelpCommand_exec args s =
    Done true s
      (flat_map (fun cmd => [CPrint [PS (join (names cmd) ", ")];
                             CPrint [PS (desc cmd)]])
                (commands (world s)))
  /\ List.length (log_of (HelpCommand_exec args s))
     = (2 * List.length (commands (world s)))%nat.
Proof.
  assert (Hrun : HelpCommand_exec args s =
    Done true s
      (flat_map (fun cmd => [CPrint [PS (join (names cmd) ", ")];
                             CPrint [PS (desc cmd)]])
                (commands (world s)))).
  { unfold HelpCommand_exec. run. unfold bind at 1.
    rewrite (for_each_prints
               (fun _ cmd => [CPrint [PS (join (names cmd) ", ")];
                              CPrint [PS (desc cmd)]])).
    - run. reflexivity.
    - intros cmd. reflexivity. }
  split; [exact Hrun|]. rewrite Hrun. cbn [log_of]. clear Hrun.
  generalize (commands (world s)). intros cmds.
  induction cmds as [|cmd rest IH]; [reflexivity|].
  cbn [flat_map app List.length]. rewrite IH. lia.
Qed.

(** [info] needs no living player.  With one argument it prints the text
    of the topic when [infos] has it and the "Unknown topic" line when it
    has not; with any other number of arguments (the vector not empty) it
    prints a heading that quotes the alias typed and then one line per
    topic.  It always returns [true] with the session as it was. *)
Theorem info_topics (s : Session World) (a0 : string) (rest : list string) :
  let w := world s in
  (forall topic,
     InfoCommand_exec [a0; topic] s =
       Done true s
         [CPrint match infos_at w topic with
                 | Some text => [PS text]
                 | None => [PS ("Unknown topic " ++ dq); PS topic; PS (dq ++ ".")]
                 end])
  /\
  (List.length rest <> 1%nat ->
   InfoCommand_exec (a0 :: rest) s =
     Done true s
       (CPrint [PS ("Available topic (use " ++ dq); PS a0;
                PS (dq ++ " <topic>" ++ dq ++ ":")]
        :: map (fun pair => CPrint [PS "  "; PS (fst pair)]) (infos w))).
Proof.
  intros w. subst w. split.
  - intros topic. unfold InfoCommand_exec. run.
    destruct (infos_at (world s) topic); run; reflexivity.
  - intros Hrest. unfold InfoCommand_exec.
    assert (Hlen : (List.length (a0 :: rest) =? 2)%nat = false).
    { simpl. destruct rest as [|x [|y r]]; simpl; try reflexivity.
      exfalso. apply Hrest. reflexivity. }
    rewrite Hlen. run. unfold bind at 1.
    rewrite (for_each_prints (fun _ pair => [CPrint [PS "  "; PS (fst pair)]])).
    + run. rewrite flat_map_singleton. reflexivity.
    + intros pair. reflexivity.
Qed.

End ReportProofs.

Lemma info_topics_witness :
  InfoCommand_exec ["i"] Demo.fallen =
    Done true Demo.fallen
      [CPrint [PS ("Available topic (use " ++ dq); PS "i";
               PS (dq ++ " <topic>" ++ dq ++ ":")];
       CPrint [PS "  "; PS "rows"]].
Proof.
  refine (proj2 (info_topics Demo.fallen "i" []) _). discriminate.
Defined.

Section LookRows.

Context {World : Type} {E : Engine World}.

Lemma look_characters_rows (cs : list Character) :
  forall (nodeSP : MapNode) (i : Z) (s : Session World),
  0 <= i ->
  exists rows,
    look_characters nodeSP i cs s = Done tt s rows
    /\ List.length rows = List.length cs
    /\ forall k c,
         nth_error cs k = Some c ->
         i + Z.of_nat k < 4294967296 ->
         nth_error rows k
           = Some (CPrint (look_row (world s) nodeSP (i + Z.of_nat k) c)).
Proof.
  induction cs as [|c rest IH]; intros nodeSP i s Hi.
  - exists []. repeat split. intros k c Hk. destruct k; discriminate.
  - assert (Hnext : 0 <= to_unsigned (i + 1)).
    { unfold to_unsigned. apply Z.mod_pos_bound. lia. }
    destruct (IH nodeSP (to_unsigned (i + 1)) s Hnext) as [rows [Hrun [Hlen Hrows]]].
    exists (CPrint (look_row (world s) nodeSP i c) :: rows).
    split; [|split].
    + simpl. run. rewrite Hrun. reflexivity.
    + simpl. rewrite Hlen. reflexivity.
    + intros k c' Hk Hbound. destruct k as [|k].
      * simpl in Hk. injection Hk as <-. simpl. rewrite Z.add_0_r. reflexivity.
      * simpl in Hk. simpl nth_error.
        assert (Hsmall : to_unsigned (i + 1) = i + 1).
        { unfold to_unsigned. apply Z.mod_small. lia. }
        rewrite (Hrows k c' Hk) by (rewrite Hsmall; lia).
        rewrite Hsmall. do 3 f_equal. lia.
Qed.

(** [look] by a living player.  With the alias alone it prints where the
    player is, a heading, and one line per character of the node, in the
    order of [characters()]: the line of the character at position [k]
    shows the number [k] (on a roster that an [unsigned] can count).
    With any argument after the alias it prints nothing at all.  Either
    way it returns [true] with the session as it was. *)
Theorem look_numbers_the_roster (s : Session World) (args : list string) :
  let w := world s in
  let nodeSP := node w (player w) in
  isAlive w (player w) = true ->
  (List.length args <> 1%nat -> LookCommand_exec args s = Done true s [])
  /\
  (List.length args = 1%nat ->
   exists rows,
     LookCommand_exec args s =
       Done true s
         (CPrint [PS "You are at "; PS (nodeName w nodeSP); PS "."]
          :: CPrint [PS "Here, there is"] :: rows)
     /\ List.length rows = List.length (characters w nodeSP)
     /\ forall k c,
          nth_error (characters w nodeSP) k = Some c ->
          Z.of_nat k < 4294967296 ->
          nth_error rows k = Some (CPrint (look_row w nodeSP (Z.of_nat k) c))).
Proof.
  intros w nodeSP Halive. subst nodeSP w. split; intros Hlen.
  - unfold LookCommand_exec, player_isAlive. run. rewrite Halive. run.
    apply Nat.eqb_neq in Hlen. rewrite Hlen. run. reflexivity.
  - destruct (look_characters_rows
                (characters (world s) (node (world s) (player (world s))))
                (node (world s) (player (world s))) 0 s (Z.le_refl 0))
      as [rows [Hrun [Hrows Hnth]]].
    exists rows. split; [|split; [exact Hrows|]].
    + unfold LookCommand_exec, player_isAlive. run. rewrite Halive. run.
      apply Nat.eqb_eq in Hlen. rewrite Hlen. run.
      unfold bind at 1. rewrite Hrun. run. reflexivity.
    + intros k c Hk Hbound. apply (Hnth k c Hk). lia.
Qed.

(** [directions] by a living player prints its heading and then, for
    every entry of [paths()] of the player's node, the labels joined by
    ", " and the name of the node they lead to; it ignores its arguments
    and returns [true] with the session as it was. *)
Theorem directions_lists_paths (s : Session World) (args : list string) :
  let w := world s in
  isAlive w (player w) = true ->
  DirectionsCommand_exec args s =
    Done true s
      (CPrint [PS "From here, you can go toward:"]
       :: map (fun pair =>
                 CPrint [PS "  "; PS (join (snd pair) ", "); PS ": toward ";
                         PS (nodeName w (fst pair))])
              (paths w (node w (player w)))).
Proof.
  intros w Halive. subst w.
  unfold DirectionsCommand_exec, player_isAlive. run. rewrite Halive. run.
  unfold bind at 1.
  rewrite (for_each_prints
             (fun w pair =>
                [CPrint [PS "  "; PS (join (snd pair) ", "); PS ": toward ";
                         PS (nodeName w (fst pair))]])).
  - run. rewrite flat_map_singleton. reflexivity.
  - intros pair. run. reflexivity.
Qed.

End LookRows.

Lemma look_numbers_the_roster_witness :
  LookCommand_exec ["look"; "tower"] Demo.start = Done true Demo.start []
  /\ exists rows,
       LookCommand_exec ["l"] Demo.start =
         Done true Demo.start
           (CPrint [PS "You are at "; PS "Base"; PS "."]
            :: CPrint [PS "Here, there is"] :: rows)
       /\ List.length rows = 5%nat.
Proof.
  assert (Halive : isAlive (world Demo.start) (player (world Demo.start)) = true)
    by reflexivity.
  destruct (look_numbers_the_roster Demo.start ["look"; "tower"] Halive)
    as [Hsilent _].
  destruct (look_numbers_the_roster Demo.start ["l"] Halive) as [_ Hrows].
  split; [apply Hsilent; discriminate|].
  destruct (Hrows eq_refl) as [rows [Hrun [Hlen _]]].
  exists rows. split; [exact Hrun | exact Hlen].
Defined.

Lemma directions_lists_paths_witness :
  DirectionsCommand_exec ["d"] Demo.start =
    Done true Demo.start
      [CPrint [PS "From here, you can go toward:"];
       CPrint [PS "  "; PS "red, east"; PS ": toward "; PS "RedCamp"]].
Proof.
  assert (Halive : isAlive (world Demo.start) (player (world Demo.start)) = true)
    by reflexivity.
  exact (directions_lists_paths Demo.start ["d"] Halive).
Defined.

(** ** Every command at once *)

Section Outcomes.

Context {World : Type} {E : Engine World}.

Lemma HelpCommand_exec_prints (args : list string) (s : Session World) :
  exists l, HelpCommand_exec args s = Done true s l /\ only_prints l = true.
Proof.
  unfold HelpCommand_exec. run. unfold bind at 1.
  rewrite (for_each_prints
             (fun _ cmd => [CPrint [PS (join (names cmd) ", ")];
                            CPrint [PS (desc cmd)]]))
    by (intros cmd; reflexivity).
  run. eexists. split; [reflexivity|].
  apply only_prints_flat_map. intros cmd. reflexivity.
Qed.

Lemma InfoCommand_exec_prints (a0 : string) (rest : list string)
  (s : Session World) :
  exists l, InfoCommand_exec (a0 :: rest) s = Done true s l /\ only_prints l = true.
Proof.
  unfold InfoCommand_exec.
  destruct (List.length (a0 :: rest) =? 2)%nat eqn:Hlen.
  - destruct rest as [|topic [|x r]]; try discriminate Hlen. run.
    destruct (infos_at (world s) topic); run; eexists; split; reflexivity.
  - run. unfold bind at 1.
    rewrite (for_each_prints (fun _ pair => [CPrint [PS "  "; PS (fst pair)]]))
      by (intros pair; reflexivity).
    run. eexists. split; [reflexivity|].
    simpl. apply only_prints_flat_map. intros pair. reflexivity.
Qed.

Lemma DirectionsCommand_exec_prints (args : list string) (s : Session World) :
  exists l, DirectionsCommand_exec args s = Done true s l /\ only_prints l = true.
Proof.
  unfold DirectionsCommand_exec, player_isAlive. run.
  destruct (isAlive (world s) (player (world s))); run.
  - unfold bind at 1.
    rewrite (for_each_prints
               (fun w pair =>
                  [CPrint [PS "  "; PS (join (snd pair) ", "); PS ": toward ";
                           PS (nodeName w (fst pair))]]))
      by (intros pair; run; reflexivity).
    run. eexists. split; [reflexivity|].
    simpl. apply only_prints_flat_map. intros pair. reflexivity.
  - eexists. split; reflexivity.
Qed.

Lemma last_snoc {A} (l : list A) (x d : A) : last (l ++ [x]) d = x.
Proof.
  induction l as [|y l IH]; [reflexivity|].
  simpl. destruct (l ++ [x])%list eqn:Hl; [destruct l; discriminate|].
  exact IH.
Qed.

(** The four ways a command can end. *)
Ltac outcome_leaf :=
  first
    [ left; eexists; split; [reflexivity|reflexivity]
    | right; left; eexists; eexists; split;
        [reflexivity|repeat split; reflexivity]
    | right; right; left; split; [reflexivity|];
        eexists; eexists; eexists; split; [reflexivity|];
        split; [reflexivity|]; intros Hcount; first [reflexivity|discriminate Hcount]
    | right; right; right; split; [auto|reflexivity] ].

Lemma exec_outcome (cmd : TMCommand) (args : list string) (s : Session World) :
  args <> [] ->
  (exists l, exec cmd args s = Done true s l /\ only_prints l = true)
  \/
  (exists w' l,
     exec cmd args s = Done true (set_world w' s) l
     /\ count_calls is_nextTurn l = 1%nat
     /\ count_calls is_restart l = 0%nat
     /\ last l (CPrint []) = CNextTurn)
  \/
  (cmd = RestartCommand /\
   exists b s' l,
     exec cmd args s = Done b s' l
     /\ count_calls is_nextTurn l = 0%nat
     /\ (count_calls is_restart l = 0%nat -> world s' = world s))
  \/
  ((cmd = AttackCommand \/ cmd = UseCommand) /\
   exec cmd args s = Stop std_out_of_range s []).
Proof.
  intros Hargs. destruct args as [|a0 rest]; [contradiction|]. clear Hargs.
  destruct cmd; cbn [exec].
  - left. apply HelpCommand_exec_prints.
  - left. apply InfoCommand_exec_prints.
  - left. apply LookCommand_exec_prints.
  - left. apply DirectionsCommand_exec_prints.
  - unfold WaitCommand_exec. crunch. outcome_leaf.
  - unfold GoCommand_exec, player_isAlive.
    destruct rest as [|a1 [|a2 rest]]; crunch;
      (destruct (isAlive (world s) (player (world s))); crunch;
       [|outcome_leaf]); try outcome_leaf.
    destruct (destination (world s) (node (world s) (player (world s)))
                (toLower a1)) as [dest|]; crunch; [|outcome_leaf].
    destruct (LookCommand_exec_prints ["look"]
                (set_world (moveCharacter (player (world s)) dest (world s)) s))
      as [look_log [Hlook Hprints]].
    unfold execCommand_look. cbn [set_world] in Hlook. rewrite Hlook. crunch.
    right. left. eexists. eexists. split; [reflexivity|].
    assert (Hnone : forall q, (forall c, is_print c = true -> q c = false) ->
              count_calls q (look_log ++ [CNextTurn])
              = count_calls q [CNextTurn]).
    { intros q Hq. unfold count_calls. rewrite filter_app, length_app.
      fold (count_calls q look_log).
      rewrite (only_prints_no look_log Hq Hprints). reflexivity. }
    repeat split.
    + unfold count_calls. cbn [filter is_nextTurn List.length].
      fold (count_calls is_nextTurn (look_log ++ [CNextTurn])).
      rewrite Hnone; [reflexivity|]. intros c Hc. destruct c; try discriminate; reflexivity.
    + unfold count_calls. cbn [filter is_restart List.length].
      fold (count_calls is_restart (look_log ++ [CNextTurn])).
      rewrite Hnone; [reflexivity|]. intros c Hc. destruct c; try discriminate; reflexivity.
    + change (CMoveCharacter (player (world s)) dest
              :: CExecCommand "look" :: look_log ++ [CNextTurn])%list
        with (([CMoveCharacter (player (world s)) dest; CExecCommand "look"]
               ++ look_log) ++ [CNextTurn])%list.
      apply last_snoc.
  - unfold MoveCommand_exec, player_isAlive.
    destruct rest as [|a1 [|a2 rest]]; all_cases; outcome_leaf.
  - unfold AttackCommand_exec, player_isAlive.
    destruct rest as [|a1 [|a2 rest]]; all_cases; outcome_leaf.
  - unfold UseCommand_exec, UseCommand_commit, player_isAlive.
    destruct rest as [|nm [|a2 [|a3 rest]]]; all_cases; outcome_leaf.
  - unfold RestartCommand_exec, RestartCommand_choose.
    destruct rest as [|a1 [|a2 rest]]; all_cases; outcome_leaf.
Qed.

End Outcomes.

Section Globals.

Context {World : Type} {E : Engine World}.

(** Given at least the alias, no command indexes its argument vector out
    of bounds, and the one exception that can leave an [exec] is the
    [std::out_of_range] of [std::stoi], from [attack] or [use], thrown
    before anything was printed or changed. *)
Theorem only_out_of_range_escapes (cmd : TMCommand) (args : list string)
  (s s' : Session World) (e : Failure) (l : list Call) :
  args <> [] ->
  exec cmd args s = Stop e s' l ->
  e = std_out_of_range /\ (cmd = AttackCommand \/ cmd = UseCommand)
  /\ s' = s /\ l = [].
Proof.
  intros Hargs Hstop.
  destruct (exec_outcome cmd args s Hargs)
    as [[l0 [Hrun _]] | [[w' [l0 [Hrun _]]] | [[_ [b [s0 [l0 [Hrun _]]]]] | [Hcmd Hrun]]]];
    rewrite Hrun in Hstop; try discriminate.
  injection Hstop as <- <- <-. repeat split. exact Hcmd.
Qed.

(** Every command but [restart] returns [true] whenever it returns: only
    [restart] ever asks for a continuation line. *)
Theorem only_restart_asks_for_more (cmd : TMCommand) (args : list string)
  (s s' : Session World) (l : list Call) :
  args <> [] ->
  exec cmd args s = Done false s' l ->
  cmd = RestartCommand.
Proof.
  intros Hargs Hdone.
  destruct (exec_outcome cmd args s Hargs)
    as [[l0 [Hrun _]] | [[w' [l0 [Hrun _]]] | [[Hcmd _] | [_ Hrun]]]];
    try (rewrite Hrun in Hdone; discriminate).
  exact Hcmd.
Qed.

(** No command steps the turn twice, and a command that steps the turn
    does so as the last thing it does. *)
Theorem nextTurn_once_and_last (cmd : TMCommand) (args : list string)
  (s : Session World) :
  args <> [] ->
  let log := log_of (exec cmd args s) in
  (count_calls is_nextTurn log <= 1)%nat
  /\ (count_calls is_nextTurn log = 1%nat -> last log (CPrint []) = CNextTurn).
Proof.
  intros Hargs log. subst log.
  destruct (exec_outcome cmd args s Hargs)
    as [[l0 [Hrun Hprints]]
       | [[w' [l0 [Hrun [Hturn [_ Hlast]]]]]
         | [[_ [b [s0 [l0 [Hrun [Hturn _]]]]]] | [_ Hrun]]]];
    rewrite Hrun; cbn [log_of].
  - assert (H0 : count_calls is_nextTurn l0 = 0%nat).
    { apply only_prints_no; [|exact Hprints].
      intros c Hc. destruct c; try discriminate; reflexivity. }
    rewrite H0. split; [lia|discriminate].
  - rewrite Hturn. split; [lia|]. intros _. exact Hlast.
  - rewrite Hturn. split; [lia|discriminate].
  - unfold count_calls. simpl. split; [lia|discriminate].
Qed.

(** Validate, then commit: a command that neither steps the turn nor
    restarts the game leaves the world exactly as it was, however it
    ends. *)
Theorem world_kept_without_turn_or_restart (cmd : TMCommand)
  (args : list string) (s : Session World) :
  args <> [] ->
  let r := exec cmd args s in
  count_calls is_nextTurn (log_of r) = 0%nat ->
  count_calls is_restart (log_of r) = 0%nat ->
  world (session_of r) = world s.
Proof.
  intros Hargs r. subst r.
  destruct (exec_outcome cmd args s Hargs)
    as [[l0 [Hrun Hprints]]
       | [[w' [l0 [Hrun [Hturn _]]]]
         | [[_ [b [s0 [l0 [Hrun [_ Hworld]]]]]] | [_ Hrun]]]];
    rewrite Hrun; cbn [log_of session_of]; intros Hnt Hrs.
  - reflexivity.
  - rewrite Hturn in Hnt. discriminate.
  - apply Hworld. exact Hrs.
  - reflexivity.
Qed.

(** With an empty argument vector the commands that quote their alias
    read [args[0]] past the end.  [go], [move], [attack] and [use] of a
    living player do it after their first usage line; [info] does it at
    once, alive or not. *)
Theorem empty_arguments_are_read (s : Session World) :
  InfoCommand_exec [] s = Stop undefined_behaviour s []
  /\
  (isAlive (world s) (player (world s)) = true ->
   (exists l, GoCommand_exec [] s = Stop undefined_behaviour s l)
   /\ (exists l, MoveCommand_exec [] s = Stop undefined_behaviour s l)
   /\ (exists l, AttackCommand_exec [] s = Stop undefined_behaviour s l)
   /\ (exists l, UseCommand_exec [] s = Stop undefined_behaviour s l)).
Proof.
  split; [reflexivity|]. intros Halive.
  unfold GoCommand_exec, MoveCommand_exec, AttackCommand_exec, UseCommand_exec,
    player_isAlive.
  crunch. rewrite Halive.
  repeat split; eexists; reflexivity.
Qed.

End Globals.

Lemma only_out_of_range_escapes_witness :
  exec UseCommand ["use"; "strike"; "4294967296"] Demo.start
    = Stop std_out_of_range Demo.start []
  /\ (UseCommand = AttackCommand \/ UseCommand = UseCommand).
Proof.
  assert (Hargs : ["use"; "strike"; "4294967296"] <> @nil string) by discriminate.
  assert (Hrun : exec UseCommand ["use"; "strike"; "4294967296"] Demo.start
                 = Stop std_out_of_range Demo.start []) by reflexivity.
  split; [exact Hrun|].
  exact (proj1 (proj2 (only_out_of_range_escapes UseCommand
                         ["use"; "strike"; "4294967296"] Demo.start Demo.start
                         std_out_of_range [] Hargs Hrun))).
Defined.

Lemma only_restart_asks_for_more_witness :
  exec RestartCommand ["restart"] Demo.start =
    Done false (mkSession (world Demo.start) true)
      [CPrint [PS "Choose your class: [ warrior, ranger, mage ]"]]
  /\ RestartCommand = RestartCommand.
Proof.
  assert (Hargs : ["restart"] <> @nil string) by discriminate.
  assert (Hrun : exec RestartCommand ["restart"] Demo.start =
    Done false (mkSession (world Demo.start) true)
      [CPrint [PS "Choose your class: [ warrior, ranger, mage ]"]])
    by reflexivity.
  split; [exact Hrun|].
  exact (only_restart_asks_for_more RestartCommand ["restart"] Demo.start
           _ _ Hargs Hrun).
Defined.

Lemma nextTurn_once_and_last_witness :
  (count_calls is_nextTurn (log_of (exec GoCommand ["go"; "red"] Demo.start)) <= 1)%nat
  /\ last (log_of (exec GoCommand ["go"; "red"] Demo.start)) (CPrint []) = CNextTurn.
Proof.
  assert (Hargs : ["go"; "red"] <> @nil string) by discriminate.
  destruct (nextTurn_once_and_last GoCommand ["go"; "red"] Demo.start Hargs)
    as [Hle Hlast].
  split; [exact Hle|]. apply Hlast. reflexivity.
Defined.

Lemma world_kept_without_turn_or_restart_witness :
  world (session_of (exec AttackCommand ["attack"; "2"] Demo.start))
    = world Demo.start.
Proof.
  refine (world_kept_without_turn_or_restart AttackCommand ["attack"; "2"]
            Demo.start _ _ _); [discriminate|reflexivity|reflexivity].
Defined.

Lemma empty_arguments_are_read_witness :
  exists l, GoCommand_exec [] Demo.start = Stop undefined_behaviour Demo.start l.
Proof.
  assert (Halive : isAlive (world Demo.start) (player (world Demo.start)) = true)
    by reflexivity.
  exact (proj1 (proj2 (empty_arguments_are_read Demo.start) Halive)).
Defined.

(** ** More of [restart], [go], [move] and [attack] *)

Section MoreProofs.

Context {World : Type} {E : Engine World}.

(** The [_readClass] flag and the return value of [restart] never part:
    whenever [restart] returns, the flag is set exactly when it returned
    [false], that is, when it waits for another line. *)
Theorem restart_flag_tracks_result (args : list string) (s s' : Session World)
  (b : bool) (l : list Call) :
  RestartCommand_exec args s = Done b s' l ->
  readClass s' = negb b.
Proof.
  unfold RestartCommand_exec, RestartCommand_choose.
  destruct args as [|a0 [|a1 [|a2 rest]]]; all_cases;
    intros H; try discriminate H; inversion H; subst;
    cbn [readClass negb]; try reflexivity; assumption.
Qed.

(** [restart] outside a dialogue, with arguments.  With one argument
    that is a class name it restarts the game at once and returns [true];
    with one argument that is not, it prints its two diagnostic lines and
    returns [true], so no dialogue is opened; with more than one argument
    it prints that it takes 0 or 1 parameter.  In the last two cases the
    world is as it was. *)
Theorem restart_with_arguments (w : World) (a0 a1 : string) (rest : list string) :
  (is_className a1 = true ->
   RestartCommand_exec [a0; a1] (mkSession w false) =
     Done true (mkSession (restart a1 w) false) [CRestart a1])
  /\
  (is_className a1 = false ->
   RestartCommand_exec [a0; a1] (mkSession w false) =
     Done true (mkSession w false)
       [CPrint [PS "Unknown class name "; PS a1];
        CPrint [PS "Please enter one class name: warrior, ranger or mage."]])
  /\
  (rest <> [] ->
   RestartCommand_exec (a0 :: a1 :: rest) (mkSession w false) =
     Done true (mkSession w false) [CPrint [PS a0; PS " takes 0 or 1 parameter."]]).
Proof.
  unfold RestartCommand_exec, RestartCommand_choose.
  split; [|split].
  - intros Hclass. crunch. rewrite Hclass. reflexivity.
  - intros Hclass. crunch. rewrite Hclass. reflexivity.
  - intros Hrest. destruct rest as [|a2 rest]; [contradiction|]. reflexivity.
Qed.

(** [go] only looks at its direction through [toLower]: two directions
    that differ in the case of their letters only are the same command,
    down to the lines printed. *)
Theorem go_ignores_case (s : Session World) (a0 a b : string) :
  toLower a = toLower b ->
  GoCommand_exec [a0; a] s = GoCommand_exec [a0; b] s.
Proof.
  intros Hab. unfold GoCommand_exec, player_isAlive. crunch.
  rewrite Hab. reflexivity.
Qed.

(** Called by a living player with the wrong arguments, [go], [move] and
    [attack] print their usage, which quotes the alias typed, and return
    [true] with the session as it was.  For [go] and [attack] wrong means
    not exactly one argument; for [move] it means anything but the one
    word "front" or the one word "back", capitals included. *)
Theorem usage_on_wrong_arguments (s : Session World) (a0 : string)
  (rest : list string) :
  isAlive (world s) (player (world s)) = true ->
  (List.length rest <> 1%nat ->
   GoCommand_exec (a0 :: rest) s =
     Done true s
       [CPrint [PS "I don't understand where you want to go. Type"];
        CPrint [PS "  "; PS a0; PS " <direction>"]])
  /\
  (rest <> ["front"] -> rest <> ["back"] ->
   MoveCommand_exec (a0 :: rest) s =
     Done true s
       [CPrint [PS "I don't understand where you want to go. Type"];
        CPrint [PS "  "; PS a0; PS " [front|back]"]])
  /\
  (List.length rest <> 1%nat ->
   AttackCommand_exec (a0 :: rest) s =
     Done true s
       [CPrint [PS "I don't understand who you want to attack. Type"];
        CPrint [PS "  "; PS a0; PS " <character-number>"];
        CPrint [PS "where <character-number> is the number displayed"];
        CPrint [PS ("when you type " ++ dq ++ "look" ++ dq ++ ".")]]).
Proof.
  intros Halive. split; [|split].
  - intros Hlen. unfold GoCommand_exec, player_isAlive. crunch. rewrite Halive.
    destruct rest as [|a1 [|a2 r]]; try reflexivity.
    exfalso. apply Hlen. reflexivity.
  - intros Hfront Hback. unfold MoveCommand_exec, player_isAlive. crunch.
    rewrite Halive.
    destruct rest as [|a1 [|a2 r]]; try reflexivity.
    crunch.
    destruct (String.eqb_spec a1 "front") as [->|_]; [contradiction Hfront; reflexivity|].
    destruct (String.eqb_spec a1 "back") as [->|_]; [contradiction Hback; reflexivity|].
    reflexivity.
  - intros Hlen. unfold AttackCommand_exec, player_isAlive. crunch. rewrite Halive.
    destruct rest as [|a1 [|a2 r]]; try reflexivity.
    exfalso. apply Hlen. reflexivity.
Qed.

(** [attack] is sound for every argument vector: whenever it calls
    [attack(target)], the attacker is the living player and the target is
    a living character of the player's node, found by [characterAt], on
    another team and within the player's range.  The player cannot hit
    itself or its team. *)
Theorem attack_only_hits_valid_targets (s : Session World)
  (args : list string) (a t : Character) :
  let w := world s in
  In (CAttack a t) (log_of (AttackCommand_exec args s)) ->
  a = player w
  /\ isAlive w a = true
  /\ isAlive w t = true
  /\ team w t <> team w a
  /\ t <> a
  /\ distanceBetween w (node w a) a t <= range w a
  /\ exists index, 0 <= index < 4294967296
                   /\ characterAt w (node w a) index = Some t.
Proof.
  intros w. subst w.
  unfold AttackCommand_exec, player_isAlive.
  destruct args as [|a0 [|a1 [|a2 rest]]]; all_cases;
    intros Hin; cbn [In] in Hin;
    repeat match goal with
    | H : _ \/ _ |- _ => destruct H
    | H : False |- _ => contradiction
    | H : CPrint _ = CAttack _ _ |- _ => discriminate H
    | H : CNextTurn = CAttack _ _ |- _ => discriminate H
    end.
  match goal with H : CAttack _ _ = CAttack _ _ |- _ => injection H as <- <- end.
  assert (Hteam : team (world s) c <> team (world s) (player (world s))).
  { intros Heq. rewrite Heq in *.
    match goal with
    | H : Team_eqb ?x ?x = false |- _ => destruct x; discriminate H
    end. }
  repeat split; try assumption.
  - intros ->. apply Hteam. reflexivity.
  - match goal with
    | H : (_ >? _) = false |- _ => rewrite Z.gtb_ltb in H; apply Z.ltb_ge in H; exact H
    end.
  - eexists. split; [|eassumption].
    unfold to_unsigned. apply Z.mod_pos_bound. lia.
Qed.

End MoreProofs.

Lemma restart_flag_tracks_result_witness :
  readClass (session_of (RestartCommand_exec ["knight"]
                           (mkSession (world Demo.start) true))) = true.
Proof.
  exact (restart_flag_tracks_result ["knight"] (mkSession (world Demo.start) true)
           _ false _ eq_refl).
Defined.

Lemma restart_with_arguments_witness :
  RestartCommand_exec ["restart"; "ranger"] Demo.start =
    Done true (mkSession (Demo.fresh "ranger") false) [CRestart "ranger"]
  /\
  RestartCommand_exec ["restart"; "Ranger"] Demo.start =
    Done true Demo.start
      [CPrint [PS "Unknown class name "; PS "Ranger"];
       CPrint [PS "Please enter one class name: warrior, ranger or mage."]].
Proof.
  split.
  - exact (proj1 (restart_with_arguments (world Demo.start) "restart" "ranger" [])
             eq_refl).
  - exact (proj1 (proj2 (restart_with_arguments (world Demo.start) "restart"
                           "Ranger" [])) eq_refl).
Defined.

Lemma go_ignores_case_witness :
  GoCommand_exec ["go"; "RED"] Demo.start = GoCommand_exec ["go"; "red"] Demo.start.
Proof.
  exact (go_ignores_case Demo.start "go" "RED" "red" eq_refl).
Defined.

Lemma usage_on_wrong_arguments_witness :
  MoveCommand_exec ["move"; "Front"] Demo.start =
    Done true Demo.start
      [CPrint [PS "I don't understand where you want to go. Type"];
       CPrint [PS "  "; PS "move"; PS " [front|back]"]].
Proof.
  assert (Halive : isAlive (world Demo.start) (player (world Demo.start)) = true)
    by reflexivity.
  refine (proj1 (proj2 (usage_on_wrong_arguments Demo.start "move" ["Front"]
                          Halive)) _ _); discriminate.
Defined.

Lemma attack_only_hits_valid_targets_witness :
  team (world Demo.start) 1%nat <> team (world Demo.start) 0%nat
  /\ distanceBetween (world Demo.start) 0%nat 0%nat 1%nat
     <= range (world Demo.start) 0%nat.
Proof.
  assert (Hin : In (CAttack 0%nat 1%nat)
                  (log_of (AttackCommand_exec ["a"; "1"] Demo.start)))
    by (left; reflexivity).
  destruct (attack_only_hits_valid_targets Demo.start ["a"; "1"] 0%nat 1%nat Hin)
    as [_ [_ [_ [Hteam [_ [Hrange _]]]]]].
  split; [exact Hteam | exact Hrange].
Defined.

Section UseMore.

Context {World : Type} {E : Engine World}.

(** What [use] by a living player answers to a line it cannot act on
    because of its arguments: no skill name, a skill the player does not
    have, a Single skill without exactly one argument after its name, a
    row skill without exactly the word "front" or "back" after its name.
    Each time one fixed line is printed (two for the usage) and the
    session is as it was. *)
Theorem use_argument_errors (s : Session World) (a0 nm : string)
  (rest : list string) :
  let w := world s in
  isAlive w (player w) = true ->
  UseCommand_exec [a0] s =
    Done true s
      [CPrint [PS "I don't understand what you try to use. Type"];
       CPrint [PS "  "; PS a0;
               PS " <skill-name> [<character-number>|front|back]"]]
  /\
  (skill w (player w) nm = None ->
   UseCommand_exec (a0 :: nm :: rest) s =
     Done true s [CPrint [PS "You don't have a skill called "; PS nm]])
  /\
  (forall skillSP,
     skill w (player w) nm = Some skillSP ->
     usable w skillSP = true ->
     (target w skillSP = SINGLE ->
      List.length rest <> 1%nat ->
      UseCommand_exec (a0 :: nm :: rest) s =
        Done true s
          [CPrint [PS ("This skill targets a single foe and so takes a " ++
                       "<character-number> in parameter.")]])
     /\
     (target w skillSP = ANY_ROW ->
      rest <> ["front"] -> rest <> ["back"] ->
      UseCommand_exec (a0 :: nm :: rest) s =
        Done true s
          [CPrint [PS ("This skill target a row so you need to choose between " ++
                       " " ++ dq ++ "front" ++ dq ++ " or " ++ dq ++ "back" ++ dq ++
                       ". The row must be in range.")]])).
Proof.
  intros w Halive. subst w. unfold UseCommand_exec, player_isAlive.
  split; [|split].
  - crunch. rewrite Halive. reflexivity.
  - intros Hskill. crunch. rewrite Halive, Hskill. reflexivity.
  - intros skillSP Hskill Husable. split.
    + intros Hmode Hlen. crunch. rewrite Halive, Hskill, Husable, Hmode.
      destruct rest as [|a2 [|a3 r]]; try reflexivity.
      exfalso. apply Hlen. reflexivity.
    + intros Hmode Hfront Hback. crunch. rewrite Halive, Hskill, Husable, Hmode.
      destruct rest as [|a2 [|a3 r]]; try reflexivity.
      crunch.
      destruct (String.eqb_spec a2 "front") as [->|_];
        [contradiction Hfront; reflexivity|].
      destruct (String.eqb_spec a2 "back") as [->|_];
        [contradiction Hback; reflexivity|].
      reflexivity.
Qed.

(** What [use] by a living player answers when the arguments are in
    order and the target is not.  For a usable Single skill and an index
    [std::stoi] reads: a character that is dead is an invalid target; a
    living one whose team is not the skill's target team is in the wrong
    team; a living one of the right team that [targets(target)] rejects
    is out of range.  For a usable row skill, or one that takes no
    target, an empty [targets] vector is reported as no targets in range.
    Each time the session is as it was. *)
Theorem use_target_errors (s : Session World) (a0 nm a2 : string)
  (skillSP : Skill) :
  let w := world s in
  isAlive w (player w) = true ->
  skill w (player w) nm = Some skillSP ->
  usable w skillSP = true ->
  (target w skillSP = SINGLE ->
   forall n t,
     stoi a2 = StoiValue n ->
     characterAt w (node w (player w)) (to_unsigned n) = Some t ->
     (isAlive w t = false ->
      UseCommand_exec [a0; nm; a2] s = Done true s [CPrint [PS "Invalid target."]])
     /\
     (isAlive w t = true -> team w t <> targetTeam w skillSP ->
      UseCommand_exec [a0; nm; a2] s =
        Done true s [CPrint [PS "Target is in the wrong team."]])
     /\
     (isAlive w t = true -> team w t = targetTeam w skillSP ->
      targets_character w skillSP t = [] ->
      UseCommand_exec [a0; nm; a2] s =
        Done true s [CPrint [PS "Target is out-of-range."]]))
  /\
  (target w skillSP = ANY_ROW ->
   (targets_place w skillSP FRONT = [] ->
    UseCommand_exec [a0; nm; "front"] s =
      Done true s [CPrint [PS "No targets in range."]])
   /\
   (targets_place w skillSP BACK = [] ->
    UseCommand_exec [a0; nm; "back"] s =
      Done true s [CPrint [PS "No targets in range."]]))
  /\
  (target w skillSP = NO_TARGET ->
   targets_none w skillSP = [] ->
   forall rest,
     UseCommand_exec (a0 :: nm :: rest) s =
       Done true s [CPrint [PS "No targets in range."]]).
Proof.
  intros w Halive Hskill Husable. subst w.
  unfold UseCommand_exec, UseCommand_commit, player_isAlive.
  split; [|split].
  - intros Hmode n t Hidx Hat. split; [|split].
    + intros Hdead. crunch.
      rewrite Halive, Hskill, Husable, Hmode, Hidx, Hat, Hdead. reflexivity.
    + intros Hlive Hteam. crunch.
      rewrite Halive, Hskill, Husable, Hmode, Hidx, Hat, Hlive.
      destruct (Team_eqb (team (world s) t) (targetTeam (world s) skillSP)) eqn:Heq;
        [|reflexivity].
      exfalso. apply Hteam.
      destruct (team (world s) t), (targetTeam (world s) skillSP);
        try discriminate Heq; reflexivity.
    + intros Hlive Hteam Hnone. crunch.
      rewrite Halive, Hskill, Husable, Hmode, Hidx, Hat, Hlive, Hteam.
      assert (Hrefl : Team_eqb (targetTeam (world s) skillSP)
                        (targetTeam (world s) skillSP) = true)
        by (destruct (targetTeam (world s) skillSP); reflexivity).
      rewrite Hrefl, Hnone. reflexivity.
  - intros Hmode. split; intros Hnone; crunch;
      rewrite Halive, Hskill, Husable, Hmode; cbn; rewrite Hnone; reflexivity.
  - intros Hmode Hnone rest. crunch.
    rewrite Halive, Hskill, Husable, Hmode, Hnone. reflexivity.
Qed.

(** A skill that takes no target ignores whatever follows its name:
    [use <skill> ...] is [use <skill>]. *)
Theorem use_no_target_ignores_arguments (s : Session World) (a0 nm : string)
  (rest : list string) (skillSP : Skill) :
  skill (world s) (player (world s)) nm = Some skillSP ->
  target (world s) skillSP = NO_TARGET ->
  UseCommand_exec (a0 :: nm :: rest) s = UseCommand_exec [a0; nm] s.
Proof.
  intros Hskill Hmode. unfold UseCommand_exec, player_isAlive. crunch.
  destruct (isAlive (world s) (player (world s))); [|reflexivity].
  rewrite Hskill.
  destruct (usable (world s) skillSP); [|reflexivity].
  rewrite Hmode. reflexivity.
Qed.

End UseMore.

(** ** The aliases *)

(** Every command has an alias, and no alias belongs to two commands: the
    table from alias to command is well defined. *)
Theorem names_unambiguous (c1 c2 : TMCommand) (alias : string) :
  names c1 <> []
  /\ (In alias (names c1) -> In alias (names c2) -> c1 = c2).
Proof.
  split; [destruct c1; discriminate|].
  destruct c1, c2; try reflexivity; cbn [names In]; intros H1 H2; exfalso;
    repeat match goal with
    | H : _ \/ _ |- _ => destruct H
    | H : False |- _ => contradiction
    end; subst; discriminate.
Qed.

Lemma names_unambiguous_witness :
  In "w" (names WaitCommand) /\ WaitCommand = WaitCommand.
Proof.
  assert (Hin : In "w" (names WaitCommand)) by (right; left; reflexivity).
  split; [exact Hin|].
  exact (proj2 (names_unambiguous WaitCommand WaitCommand "w") Hin Hin).
Defined.

Lemma use_argument_errors_witness :
  UseCommand_exec ["use"; "bomb"; "left"] Demo.start =
    Done true Demo.start
      [CPrint [PS ("This skill target a row so you need to choose between " ++
                   " " ++ dq ++ "front" ++ dq ++ " or " ++ dq ++ "back" ++ dq ++
                   ". The row must be in range.")]]
  /\
  UseCommand_exec ["use"; "fireball"; "1"] Demo.start =
    Done true Demo.start [CPrint [PS "You don't have a skill called "; PS "fireball"]].
Proof.
  assert (Halive : isAlive (world Demo.start) (player (world Demo.start)) = true)
    by reflexivity.
  destruct (use_argument_errors Demo.start "use" "bomb" ["left"] Halive)
    as [_ [_ Hbomb]].
  destruct (use_argument_errors Demo.start "use" "fireball" ["1"] Halive)
    as [_ [Hunknown _]].
  split.
  - refine (proj2 (Hbomb 1%nat eq_refl eq_refl) eq_refl _ _); discriminate.
  - exact (Hunknown eq_refl).
Defined.

Lemma use_target_errors_witness :
  UseCommand_exec ["use"; "strike"; "3"] Demo.start =
    Done true Demo.start [CPrint [PS "Target is in the wrong team."]]
  /\
  UseCommand_exec ["use"; "strike"; "4"] Demo.start =
    Done true Demo.start [CPrint [PS "Invalid target."]]
  /\
  UseCommand_exec ["use"; "strike"; "2"] Demo.start =
    Done true Demo.start [CPrint [PS "Target is out-of-range."]].
Proof.
  assert (Halive : isAlive (world Demo.start) (player (world Demo.start)) = true)
    by reflexivity.
  assert (Hskill : skill (world Demo.start) (player (world Demo.start)) "strike"
                   = Some 0%nat) by reflexivity.
  assert (Husable : usable (world Demo.start) 0%nat = true) by reflexivity.
  assert (Hmode : target (world Demo.start) 0%nat = SINGLE) by reflexivity.
  split; [|split].
  - destruct (use_target_errors Demo.start "use" "strike" "3" 0%nat
                Halive Hskill Husable) as [Hsingle _].
    refine (proj1 (proj2 (Hsingle Hmode 3 3%nat eq_refl eq_refl)) eq_refl _).
    discriminate.
  - destruct (use_target_errors Demo.start "use" "strike" "4" 0%nat
                Halive Hskill Husable) as [Hsingle _].
    exact (proj1 (Hsingle Hmode 4 4%nat eq_refl eq_refl) eq_refl).
  - destruct (use_target_errors Demo.start "use" "strike" "2" 0%nat
                Halive Hskill Husable) as [Hsingle _].
    exact (proj2 (proj2 (Hsingle Hmode 2 2%nat eq_refl eq_refl))
             eq_refl eq_refl eq_refl).
Defined.

Lemma use_no_target_ignores_arguments_witness :
  UseCommand_exec ["use"; "roar"; "front"; "now"] Demo.start =
    UseCommand_exec ["use"; "roar"] Demo.start.
Proof.
  exact (use_no_target_ignores_arguments Demo.start "use" "roar" ["front"; "now"]
           2%nat eq_refl eq_refl).
Defined.

Section ReadOnly.

Context {World : Type} {E : Engine World}.

(** The four information commands never act: whatever the arguments
    after the alias and whether the player lives or not, [help], [info],
    [look] and [directions] return [true], leave the session as it was
    and call nothing but [print]. *)
Theorem information_commands_report_only (cmd : TMCommand) (a0 : string)
  (rest : list string) (s : Session World) :
  cmd = HelpCommand \/ cmd = InfoCommand \/ cmd = LookCommand
  \/ cmd = DirectionsCommand ->
  reports_only (exec cmd (a0 :: rest) s) s
  /\ exists l, exec cmd (a0 :: rest) s = Done true s l.
Proof.
  intros [-> | [-> | [-> | ->]]]; cbn [exec].
  - destruct (HelpCommand_exec_prints (a0 :: rest) s) as [l [Hrun Hl]].
    rewrite Hrun. split; [split; [reflexivity|exact Hl]|]. exists l. reflexivity.
  - destruct (InfoCommand_exec_prints a0 rest s) as [l [Hrun Hl]].
    rewrite Hrun. split; [split; [reflexivity|exact Hl]|]. exists l. reflexivity.
  - destruct (LookCommand_exec_prints (a0 :: rest) s) as [l [Hrun Hl]].
    rewrite Hrun. split; [split; [reflexivity|exact Hl]|]. exists l. reflexivity.
  - destruct (DirectionsCommand_exec_prints (a0 :: rest) s) as [l [Hrun Hl]].
    rewrite Hrun. split; [split; [reflexivity|exact Hl]|]. exists l. reflexivity.
Qed.

End ReadOnly.

Lemma information_commands_report_only_witness :
  reports_only (exec LookCommand ["look"] Demo.start) Demo.start.
Proof.
  refine (proj1 (information_commands_report_only LookCommand "look" []
                   Demo.start _)).
  right. right. left. reflexivity.
Defined.
